(** * OAuth application secrets plugin: configuration path and mock provider

    A shallow embedding of

    - [pkg/backend/path_config.go]: the handlers of the [config] and
      [config/auth_code_url] paths;
    - the [testutil] package (mock provider factory, mock exchange
      configuration);
    - the scenario of [pkg/provider/basic_test.go].

    Go maps are [gmap]s, Go [int]s are [Z], [float64] is the kernel's binary64
    [float], a Go [(value, error)] pair is a sum or a pair of options, and code
    that mutates shared objects threads them explicitly. *)

From Stdlib Require Import ZArith String List Ascii Lia Bool.
From Stdlib Require Import Floats.PrimFloat.
From Stdlib Require Floats.SpecFloat Floats.FloatOps Floats.FloatAxioms.
From Stdlib Require DecimalString DecimalZ.
From stdpp Require Import base option list gmap strings sorting.

Local Open Scope string_scope.
Local Open Scope list_scope.
Local Open Scope Z_scope.

(** ** Strings, URLs and HTTP, as far as the embedded code uses them *)

Module net.

(** [url.Values], read with [Get]: the first value of a key. *)
Definition Values : Type := gmap string string.

Definition ValuesGet (v : Values) (key : string) : string := default "" (v !! key).

(** [strings.Cut] at a separator character. *)
Fixpoint Cut (sep : ascii) (s : string) : option (string * string) :=
  match s with
  | EmptyString => None
  | String c rest =>
      if Ascii.eqb c sep then Some (EmptyString, rest)
      else match Cut sep rest with
           | Some (before, after) => Some (String c before, after)
           | None => None
           end
  end.

Fixpoint Split (sep : ascii) (s : string) : list string :=
  match s with
  | EmptyString => [EmptyString]
  | String c rest =>
      if Ascii.eqb c sep then EmptyString :: Split sep rest
      else match Split sep rest with
           | [] => [String c EmptyString]
           | piece :: pieces => String c piece :: pieces
           end
  end.

Definition unhex (c : ascii) : option N :=
  let n := N_of_ascii c in
  if (48 <=? n)%N && (n <=? 57)%N then Some (n - 48)%N
  else if (97 <=? n)%N && (n <=? 102)%N then Some (n - 87)%N
  else if (65 <=? n)%N && (n <=? 70)%N then Some (n - 55)%N
  else None.

(** [url.QueryUnescape]. *)
Fixpoint QueryUnescape (s : string) : option string :=
  match s with
  | EmptyString => Some EmptyString
  | String c rest =>
      if Ascii.eqb c "%" then
        match rest with
        | String h1 (String h2 rest') =>
            match unhex h1, unhex h2, QueryUnescape rest' with
            | Some a, Some b, Some r => Some (String (ascii_of_N (16 * a + b)) r)
            | _, _, _ => None
            end
        | _ => None
        end
      else
        match QueryUnescape rest with
        | Some r => Some (String (if Ascii.eqb c "+" then " "%char else c) r)
        | None => None
        end
  end.

(** [url.ParseQuery], with the values that [Get] reads. *)
Fixpoint parsePairs (pieces : list string) : option Values :=
  match pieces with
  | [] => Some ∅
  | piece :: rest =>
      match parsePairs rest with
      | None => None
      | Some m =>
          if bool_decide (piece = EmptyString) then Some m
          else
            let '(k, v) := default (piece, EmptyString) (Cut "=" piece) in
            match QueryUnescape k, QueryUnescape v with
            | Some k', Some v' => Some (<[k' := v']> m)
            | _, _ => None
            end
      end
  end.

Definition ParseQuery (query : string) : option Values := parsePairs (Split "&" query).

(** [strconv.Atoi] on an unsigned decimal numeral. *)
Fixpoint digits (acc : Z) (s : string) : option Z :=
  match s with
  | EmptyString => Some acc
  | String c rest =>
      let n := N_of_ascii c in
      if (48 <=? n)%N && (n <=? 57)%N then digits (10 * acc + Z.of_N (n - 48)) rest
      else None
  end.

Definition Atoi (s : string) : option Z :=
  match s with
  | EmptyString => None
  | _ => digits 0 s
  end.

Definition toLower (c : ascii) : ascii :=
  let n := N_of_ascii c in
  if (65 <=? n)%N && (n <=? 90)%N then ascii_of_N (n + 32) else c.

Fixpoint ToLower (s : string) : string :=
  match s with
  | EmptyString => EmptyString
  | String c rest => String (toLower c) (ToLower rest)
  end.

(** [strings.EqualFold], on ASCII. *)
Definition EqualFold (s t : string) : bool := bool_decide (ToLower s = ToLower t).

(** The path of an absolute URL: what follows the scheme and the host. *)
Fixpoint afterScheme (u : string) : option string :=
  match u with
  | String ":" (String "/" (String "/" rest)) => Some rest
  | String _ rest => afterScheme rest
  | EmptyString => None
  end.

Definition URLPath (u : string) : string :=
  match afterScheme u with
  | None => u
  | Some rest =>
      match Cut "/" rest with
      | Some (_, path) => String "/" path
      | None => EmptyString
      end
  end.

(** An HTTP answer: the status code and the body. *)
Record HTTPResponse : Type := { StatusCode : Z; Body : string }.

(** An HTTP request, as far as the embedded handlers read it: the URL and the
    form that [url.ParseQuery] finds in the body. *)
Record Request : Type := { URL : string; Form : Values }.

(** [http.RoundTripper]: the HTTP client of the context. *)
Definition Transport : Type := Request -> HTTPResponse.

End net.

(** ** Package [provider]: errors, endpoints, tokens, the provider interface *)

Module provider.

(** Go [error] values that occur in the embedded code.  [MarkUser] is the
    wrapper that [errmark.MarkUser] puts around an error. *)
Inductive error : Type :=
| ErrNoSuchProvider
| ErrNoProviderWithVersion
| OptionError (Option Message : string)
| RetrieveError
| StorageError (msg : string)
| MarkUser (e : error).

#[global] Instance error_eq_dec : EqDecision error.
Proof. solve_decision. Defined.

(** [errors.Is(err, target)] for the sentinel targets used here: the chain of
    wrappers is followed. *)
Fixpoint errors_Is (err target : error) : bool :=
  if bool_decide (err = target) then true
  else match err with
       | MarkUser e => errors_Is e target
       | _ => false
       end.

(** [errmark.MarkedUser]: does the error carry the user mark? *)
Definition MarkedUser (err : error) : bool :=
  match err with
  | MarkUser _ => true
  | _ => false
  end.

(** [oauth2.Endpoint] (the authentication style is not used by the embedded
    code). *)
Record Endpoint : Type := { AuthURL : string; TokenURL : string }.

(** A parsed URL, as [net/url] presents it to the tests: the part before the
    query, and the query as a map. *)
Record ParsedURL : Type := { Base : string; Query : gmap string string }.

(** [oauth2.Token], embedded in [provider.Token].  [Expiry = None] is Go's
    zero time.  Instants and durations are in nanoseconds. *)
Record Token : Type := {
  AccessToken : string;
  TokenType : string;
  RefreshToken : string;
  Expiry : option Z
}.

Definition Nanosecond : Z := 1.
Definition Second : Z := 1000000000 * Nanosecond.
Definition Minute : Z := 60 * Second.
Definition Hour : Z := 60 * Minute.

(** [time.Duration.Seconds] followed by the conversion [int(...)]. *)
Definition Seconds (d : Z) : Z := d `quot` Second.

(** [oauth2]: a token counts as expired [expiryDelta] before its expiry. *)
Definition expiryDelta : Z := 10 * Second.

Definition expired (now : Z) (t : Token) : bool :=
  match Expiry t with
  | None => false
  | Some e => bool_decide (e - expiryDelta < now)
  end.

(** [Token.Valid]. *)
Definition Valid (now : Z) (t : Token) : bool :=
  negb (bool_decide (AccessToken t = "")) && negb (expired now t).

(** Modelled from the spec: the conforming authorization-code URL builder
    ([provider.NewConformingAuthCodeURLConfigBuilder] is not among the source
    files; section 4.2 describes a builder with [with_redirect_url],
    [with_scopes], [build], whose configuration yields
    [auth_code_url(state)]; scenario 2 of section 8 lists the query it
    produces). *)
Record AuthCodeURLConfigBuilder : Type := {
  cb_endpoint : Endpoint;
  cb_clientID : string;
  cb_redirectURL : string;
  cb_scopes : list string
}.

(** Modelled from the spec: the builder starts from the endpoint and the
    client ID ([auth_code_url_builder(client_id)], section 4.2). *)
Definition NewConformingAuthCodeURLConfigBuilder (e : Endpoint) (clientID : string)
  : AuthCodeURLConfigBuilder :=
  {| cb_endpoint := e; cb_clientID := clientID; cb_redirectURL := ""; cb_scopes := [] |}.

(** Modelled from the spec: [with_redirect_url] of the builder (section 4.2). *)
Definition WithRedirectURL (redirectURL : string) (cb : AuthCodeURLConfigBuilder)
  : AuthCodeURLConfigBuilder :=
  {| cb_endpoint := cb_endpoint cb; cb_clientID := cb_clientID cb;
     cb_redirectURL := redirectURL; cb_scopes := cb_scopes cb |}.

(** Modelled from the spec: [with_scopes] of the builder (section 4.2). *)
Definition WithScopes (scopes : list string) (cb : AuthCodeURLConfigBuilder)
  : AuthCodeURLConfigBuilder :=
  {| cb_endpoint := cb_endpoint cb; cb_clientID := cb_clientID cb;
     cb_redirectURL := cb_redirectURL cb; cb_scopes := scopes |}.

(** [strings.Join]. *)
Fixpoint Join (elems : list string) (sep : string) : string :=
  match elems with
  | [] => ""
  | [s] => s
  | s :: rest => s +:+ sep +:+ Join rest sep
  end.

(** [oauth2.SetAuthURLParam(k, v)], applied in order to the query. *)
Definition SetAuthURLParams (opts : list (string * string)) (q : gmap string string)
  : gmap string string :=
  fold_left (fun acc kv => <[kv.1 := kv.2]> acc) opts q.

(** Modelled from the spec: [auth_code_url(state)] of a built configuration
    (the code is not among the source files; scenario 2 of section 8: the
    query holds [response_type=code], the client ID, the redirect URL, the
    scopes joined by spaces, the state, and the extra parameters). *)
Definition AuthCodeURL (cb : AuthCodeURLConfigBuilder) (state : string)
    (opts : list (string * string)) : ParsedURL :=
  let v0 : gmap string string :=
    {[ "response_type" := "code"; "client_id" := cb_clientID cb ]} in
  let v1 := if bool_decide (cb_redirectURL cb = "") then v0
            else <["redirect_uri" := cb_redirectURL cb]> v0 in
  let v2 := match cb_scopes cb with
            | [] => v1
            | _ => <["scope" := Join (cb_scopes cb) " "]> v1
            end in
  let v3 := if bool_decide (state = "") then v2 else <["state" := state]> v2 in
  {| Base := AuthURL (cb_endpoint cb); Query := SetAuthURLParams opts v3 |}.

(** The provider interface, as far as the embedded code calls it. *)
Record Provider : Type := {
  Version : Z;
  NewAuthCodeURLConfigBuilder : string -> AuthCodeURLConfigBuilder
}.

(** [provider.FactoryFunc].  A Go map is passed by reference: next to its
    result, a factory hands back the options map as it has left it. *)
Definition FactoryFunc : Type :=
  Z -> gmap string string -> gmap string string * (error + Provider).

Definition VersionLatest : Z := -1.

(** Modelled from the spec: the registry ([pkg/provider/registry.go] is not
    among the source files; section 4.1: a name-to-factory mapping,
    [build(name, version|latest, options)] gives the factory's answer or
    [NoSuchProvider]). *)
Definition Registry : Type := gmap string FactoryFunc.

(** Modelled from the spec: a bad option is a user error (section 7, reported
    to the caller as a visible response): the registry, which is not among
    the source files, hands a factory's [OptionError] on with the user mark. *)
Definition markOptionError (err : error) : error :=
  match err with
  | OptionError k msg => MarkUser (OptionError k msg)
  | _ => err
  end.

(** Modelled from the spec: [build(name, version, options)] of the registry
    (section 4.1; [pkg/provider/registry.go] is not among the source files):
    [NoSuchProvider] for a name without factory, else the factory's answer. *)
Definition NewAt (r : Registry) (name : string) (vsn : Z) (opts : gmap string string)
  : gmap string string * (error + Provider) :=
  match r !! name with
  | None => (opts, inl ErrNoSuchProvider)
  | Some f =>
      match f vsn opts with
      | (opts', inl err) => (opts', inl (markOptionError err))
      | (opts', inr p) => (opts', inr p)
      end
  end.

(** Modelled from the spec: [build(name, latest, options)] (section 4.1). *)
Definition New (r : Registry) (name : string) (opts : gmap string string)
  : gmap string string * (error + Provider) :=
  NewAt r name VersionLatest opts.

End provider.

(** ** Package [testutil]: the mock provider *)

Module testutil.
Import net provider.

Definition MockAuthCodeURL : string := "http://localhost/authorize".
Definition MockTokenURL : string := "http://localhost/token".

Definition MockEndpoint : Endpoint :=
  {| AuthURL := MockAuthCodeURL; TokenURL := MockTokenURL |}.

(** [MockRoundTripper]: the request is served by the handler, and what the
    recorder has taken down is the answer. *)
Record MockRoundTripper : Type := { Handler : Request -> HTTPResponse }.

Definition RoundTrip (mrt : MockRoundTripper) : Transport :=
  fun r => Handler mrt r.

Record MockClient : Type := { ID : string; Secret : string }.

#[global] Instance MockClient_eq_dec : EqDecision MockClient.
Proof. solve_decision. Defined.

(** What an exchange function can observe of the outside: the clock. *)
Record World : Type := { now : Z }.

(** [MockExchangeFunc].  Tokens are values here: the pointer identity of the
    token that [StaticMockExchange] hands out again and again is not kept. *)
Definition MockExchangeFunc : Type := string -> World -> error + Token.

Definition StaticMockExchange (token : Token) : MockExchangeFunc :=
  fun _ _ => inr token.

Definition AmendTokenMockExchange (get : MockExchangeFunc)
    (amend : Token -> World -> error + Token) : MockExchangeFunc :=
  fun candidate w =>
    match get candidate w with
    | inl err => inl err
    | inr token =>
        match amend token w with
        | inl err => inl err
        | inr token' => inr token'
        end
    end.

Definition ExpiringMockExchange (fn : MockExchangeFunc) (duration : Z) : MockExchangeFunc :=
  AmendTokenMockExchange fn (fun t w =>
    inr {| AccessToken := AccessToken t; TokenType := TokenType t;
           RefreshToken := RefreshToken t; Expiry := Some (now w + duration) |}).

Definition ErrorMockExchange : MockExchangeFunc :=
  fun _ _ => inl RetrieveError.

Definition RestrictMockExchange (m : gmap string MockExchangeFunc) : MockExchangeFunc :=
  fun token w =>
    match m !! token with
    | None => inl RetrieveError
    | Some fn => fn token w
    end.

(** The [mock] struct.  [refresh] is its mutable part (guarded by
    [refreshMut] in the source). *)
Record mock : Type := {
  vsn : Z;
  expectedOpts : gmap string string;
  exchanges : MockClient -> option MockExchangeFunc;
  refresh : gmap string string
}.

Definition mockProvider (owner : mock) : Provider :=
  {| Version := vsn owner;
     NewAuthCodeURLConfigBuilder := NewConformingAuthCodeURLConfigBuilder MockEndpoint |}.

(** The order in which a [range] loop visits a map is chosen by the Go
    runtime; the embedding takes that choice as an argument. *)
Definition RangeOrder : Type := gmap string string -> list (string * string).

Definition ValidOrder (ord : RangeOrder) : Prop :=
  ∀ m : gmap string string, ord m ≡ₚ map_to_list m.

(** [strconv.Quote], the [%q] verb of [fmt.Sprintf], on ASCII: the quote and
    the backslash are escaped, control characters are written as Go writes
    them; bytes from 128 on are left as they are. *)
Definition dquote : string := String (ascii_of_nat 34) EmptyString.

Definition hexDigit (n : N) : ascii :=
  if (n <? 10)%N then ascii_of_N (48 + n) else ascii_of_N (87 + n).

Definition backslash : string := String (ascii_of_nat 92) EmptyString.

Definition quoteByte (c : ascii) : string :=
  let n := N_of_ascii c in
  if (n =? 34)%N then backslash +:+ dquote
  else if (n =? 92)%N then backslash +:+ backslash
  else if (n =? 7)%N then backslash +:+ "a"
  else if (n =? 8)%N then backslash +:+ "b"
  else if (n =? 12)%N then backslash +:+ "f"
  else if (n =? 10)%N then backslash +:+ "n"
  else if (n =? 13)%N then backslash +:+ "r"
  else if (n =? 9)%N then backslash +:+ "t"
  else if (n =? 11)%N then backslash +:+ "v"
  else if (n <? 32)%N || (n =? 127)%N then
    backslash +:+ "x"
      +:+ String (hexDigit (n / 16)) (String (hexDigit (n mod 16)) EmptyString)
  else String c EmptyString.

Fixpoint quoteBytes (s : string) : string :=
  match s with
  | EmptyString => EmptyString
  | String c rest => quoteByte c +:+ quoteBytes rest
  end.

Definition Quote (s : string) : string := dquote +:+ quoteBytes s +:+ dquote.

(** The first loop of [factory]: every expected option is looked up in
    [options], compared, and deleted from [options]. *)
Fixpoint checkExpected (es : list (string * string)) (options : gmap string string)
  : gmap string string * option error :=
  match es with
  | [] => (options, None)
  | (k, ev) :: es' =>
      match options !! k with
      | None => (options, Some (OptionError k "not found"))
      | Some av =>
          if bool_decide (av = ev) then checkExpected es' (delete k options)
          else (options,
                Some (OptionError k ("expected " +:+ Quote ev +:+ ", got " +:+ Quote av)))
      end
  end.

(** [mock.factory]. *)
Definition factory (ord : RangeOrder) (m : mock) : FactoryFunc :=
  fun vsn' options =>
    if bool_decide (vsn' = -1) || bool_decide (vsn' = vsn m) then
      match checkExpected (ord (expectedOpts m)) options with
      | (options', Some err) => (options', inl err)
      | (options', None) =>
          match ord options' with
          | (k, _) :: _ => (options', inl (OptionError k "unexpected"))
          | [] => (options', inr (mockProvider m))
          end
      end
    else (options, inl ErrNoProviderWithVersion).

Definition putRefreshTokenCode (m : mock) (refreshToken code : string) : mock :=
  {| vsn := vsn m; expectedOpts := expectedOpts m; exchanges := exchanges m;
     refresh := <[refreshToken := code]> (refresh m) |}.

Definition getRefreshTokenCode (m : mock) (refreshToken : string) : option string :=
  refresh m !! refreshToken.

(** [mockExchangeConfig]: the [owner] is shared and mutable, so it is part of
    the state the methods run on, next to the clock and a log of the calls
    made to the exchange function. *)
Record mockExchangeConfig : Type := { fn : option MockExchangeFunc }.

Record MockState : Type := {
  owner : mock;
  world : World;
  calls : list string
}.

Definition callFn (f : MockExchangeFunc) (code : string) (s : MockState)
  : (error + Token) * MockState :=
  (f code (world s),
   {| owner := owner s; world := world s; calls := calls s ++ [code] |}).

Definition Exchange (c : mockExchangeConfig) (code : string) (s : MockState)
  : (error + Token) * MockState :=
  match fn c with
  | None => (inl RetrieveError, s)
  | Some f =>
      match callFn f code s with
      | (inl err, s') => (inl err, s')
      | (inr tok, s') =>
          if bool_decide (RefreshToken tok = "") then (inr tok, s')
          else (inr tok,
                {| owner := putRefreshTokenCode (owner s') (RefreshToken tok) code;
                   world := world s'; calls := calls s' |})
      end
  end.

Definition Refresh (c : mockExchangeConfig) (t : Token) (s : MockState)
  : (error + Token) * MockState :=
  match (if bool_decide (RefreshToken t = "") then None else fn c) with
  | None => (inr t, s)
  | Some f =>
      match getRefreshTokenCode (owner s) (RefreshToken t) with
      | None => (inr t, s)
      | Some code =>
          if Valid (now (world s)) t then (inr t, s)
          else callFn f code s
      end
  end.

Record mockExchangeConfigBuilder : Type := { cb_client : MockClient }.

Definition NewExchangeConfigBuilder (clientID clientSecret : string)
  : mockExchangeConfigBuilder :=
  {| cb_client := {| ID := clientID; Secret := clientSecret |} |}.

Definition Build (cb : mockExchangeConfigBuilder) (m : mock) : mockExchangeConfig :=
  {| fn := exchanges m (cb_client cb) |}.

(** [MockOption]s and [MockFactory]. *)
Definition MockOption : Type := mock -> mock.

Definition MockWithVersion (v : Z) : MockOption :=
  fun m => {| vsn := v; expectedOpts := expectedOpts m;
              exchanges := exchanges m; refresh := refresh m |}.

Definition MockWithExpectedOptionValue (opt value : string) : MockOption :=
  fun m => {| vsn := vsn m; expectedOpts := <[opt := value]> (expectedOpts m);
              exchanges := exchanges m; refresh := refresh m |}.

Definition MockWithExchange (client : MockClient) (f : MockExchangeFunc) : MockOption :=
  fun m => {| vsn := vsn m; expectedOpts := expectedOpts m;
              exchanges := fun c => if bool_decide (c = client) then Some f
                                    else exchanges m c;
              refresh := refresh m |}.

Definition newMock (opts : list MockOption) : mock :=
  fold_left (fun m opt => opt m) opts
    (MockWithVersion 1
       {| vsn := 0; expectedOpts := ∅; exchanges := fun _ => None; refresh := ∅ |}).

Definition MockFactory (ord : RangeOrder) (opts : list MockOption) : FactoryFunc :=
  factory ord (newMock opts).

End testutil.

(** ** Package [persistence]: entries and the store *)

Module persistence.
Import provider.

(** [persistence.ConfigTuningEntry], with the fields that [path_config.go]
    reads and writes (the declaration is not among the source files). *)
Record ConfigTuningEntry : Type := {
  ProviderTimeoutSeconds : Z;
  ProviderTimeoutExpiryLeewayFactor : float;
  RefreshCheckIntervalSeconds : Z;
  RefreshExpiryDeltaFactor : float;
  ReapCheckIntervalSeconds : Z;
  ReapDryRun : bool;
  ReapNonRefreshableSeconds : Z;
  ReapRevokedSeconds : Z;
  ReapTransientErrorAttempts : Z;
  ReapTransientErrorSeconds : Z
}.

(** [persistence.ConfigEntry], with the fields of the literal in
    [configUpdateOperation]. *)
Record ConfigEntry : Type := {
  Version : Z;
  ClientID : string;
  ClientSecret : string;
  AuthURLParams : gmap string string;
  ProviderName : string;
  ProviderVersion : Z;
  ProviderOptions : gmap string string;
  Tuning : ConfigTuningEntry
}.

(** Modelled from the spec: a credential entry (section 3; the declaration is
    not among the source files). *)
Record CredentialEntry : Type := {
  Token : provider.Token;
  ExtraData : gmap string string
}.

(** Modelled from the spec: what the store holds under a key (section 4.3:
    [config] holds the singleton ConfigEntry, [creds/<name>] one
    CredentialEntry per name). *)
Inductive Entry : Type :=
| ConfigValue (c : ConfigEntry)
| CredentialValue (c : CredentialEntry).

(** Modelled from the spec: the store (section 1: get/put/list/delete of
    values by key; section 7: an operation may fail with a StoreError).
    [fault] is the error the storage driver currently answers with, if any. *)
Record Storage : Type := {
  kv : gmap string Entry;
  fault : option error
}.

(** Modelled from the spec: the key schema (section 4.3). *)
Definition configKey : string := "config".
Definition credsKeyPrefix : string := "creds/".

(** Modelled from the spec: [ReadConfig], the store's [read] at [config]. *)
Definition ReadConfig (st : Storage) : error + option ConfigEntry :=
  match fault st with
  | Some err => inl err
  | None =>
      match kv st !! configKey with
      | None => inr None
      | Some (ConfigValue c) => inr (Some c)
      | Some (CredentialValue _) => inl (StorageError "config: not a ConfigEntry")
      end
  end.

(** Modelled from the spec: [WriteConfig], the store's [write] at [config]. *)
Definition WriteConfig (st : Storage) (c : ConfigEntry) : error + Storage :=
  match fault st with
  | Some err => inl err
  | None => inr {| kv := <[configKey := ConfigValue c]> (kv st); fault := None |}
  end.

(** Modelled from the spec: [DeleteConfig], the store's [delete] at [config]. *)
Definition DeleteConfig (st : Storage) : error + Storage :=
  match fault st with
  | Some err => inl err
  | None => inr {| kv := delete configKey (kv st); fault := None |}
  end.

(** Modelled from the spec: the stored CredentialEntry under [creds/<name>]. *)
Definition ReadCredential (st : Storage) (name : string) : option Entry :=
  kv st !! (credsKeyPrefix +:+ name).

End persistence.

(** ** Package [backend]: the [config] paths *)

Module backend.
Import provider persistence.

(** [interface{}] values that the handlers put in a response. *)
Inductive Value : Type :=
| VString (s : string)
| VInt (z : Z)
| VFloat (f : float)
| VBool (b : bool)
| VKVPairs (m : gmap string string)
| VURL (u : ParsedURL).

(** [logical.Response]: what [logical.ErrorResponse(text, vargs...)] builds
    (the format and its arguments are kept apart), what it builds from the
    text of an error, and a response with data. *)
Inductive Response : Type :=
| ErrorResponse (text : string) (vargs : list string)
| ErrorResponseOf (err : error)
| DataResponse (Data : gmap string Value).

(** [logical.Response.IsError]. *)
Definition IsError (r : Response) : bool :=
  match r with
  | ErrorResponse _ _ | ErrorResponseOf _ => true
  | DataResponse _ => false
  end.

(** The Go result pair of a handler: a response, or nil, and an error, or nil. *)
Definition Result : Type := option Response * option error.

(** Modelled from the spec: the cache bundle (section 4.8: the current
    ConfigEntry and the provider built for it). *)
Record cache : Type := { Config : ConfigEntry; Provider : provider.Provider }.

(** What a handler does to the outside, in order. *)
Inductive Event : Type :=
| EvWriteConfig (c : ConfigEntry)
| EvDeleteConfig
| EvReset.

(** The backend, with the storage of the request and the events so far. *)
Record backend : Type := {
  providerRegistry : Registry;
  storage : Storage;
  cached : option cache;
  events : list Event
}.

Definition withStorage (b : backend) (st : Storage) (ev : Event) : backend :=
  {| providerRegistry := providerRegistry b; storage := st;
     cached := cached b; events := events b ++ [ev] |}.

(** Modelled from the spec: [reset] (section 4.4: invalidate the cache,
    cancel the schedulers, relaunch them under the new tuning; the schedulers
    are not part of this embedding, the event records the call). *)
Definition reset (b : backend) : backend :=
  {| providerRegistry := providerRegistry b; storage := storage b;
     cached := None; events := events b ++ [EvReset] |}.

(** Modelled from the spec: [getCache] (section 4.8: rebuilt lazily on first
    need from the stored ConfigEntry, with the provider built at the pinned
    version; an error when the store or the registry fails; nothing when
    there is no ConfigEntry). *)
Definition getCache (b : backend) : backend * (error + option cache) :=
  match cached b with
  | Some c => (b, inr (Some c))
  | None =>
      match ReadConfig (storage b) with
      | inl err => (b, inl err)
      | inr None => (b, inr None)
      | inr (Some cfg) =>
          match NewAt (providerRegistry b) (ProviderName cfg) (ProviderVersion cfg)
                      (ProviderOptions cfg) with
          | (_, inl err) => (b, inl err)
          | (_, inr p) =>
              let c := {| Config := cfg; Provider := p |} in
              ({| providerRegistry := providerRegistry b; storage := storage b;
                  cached := Some c; events := events b |}, inr (Some c))
          end
      end
  end.

(** [framework.FieldData] of the [config] path after the framework has parsed
    it against [configFields]: a field is absent or has the type of its
    schema. *)
Record ConfigFieldData : Type := {
  client_id : option string;
  client_secret : option string;
  auth_url_params : option (gmap string string);
  provider_name : option string;
  provider_options : option (gmap string string);
  tune_provider_timeout_seconds : option Z;
  tune_provider_timeout_expiry_leeway_factor : option float;
  tune_refresh_check_interval_seconds : option Z;
  tune_refresh_expiry_delta_factor : option float;
  tune_reap_check_interval_seconds : option Z;
  tune_reap_dry_run : option bool;
  tune_reap_non_refreshable_seconds : option Z;
  tune_reap_revoked_seconds : option Z;
  tune_reap_transient_error_attempts : option Z;
  tune_reap_transient_error_seconds : option Z
}.

(** [framework.FieldData] of the [config/auth_code_url] path. *)
Record AuthCodeURLFieldData : Type := {
  acu_auth_url_params : option (gmap string string);
  acu_redirect_url : option string;
  acu_scopes : option (list string);
  acu_state : option string;
  acu_provider_options : option (gmap string string)
}.

(** [FieldData.Get]: the value, or the default of the schema (its zero value
    when the schema names none). *)
Definition Get {A : Type} (dflt : A) (field : option A) : A :=
  match field with
  | Some v => v
  | None => dflt
  end.

(** Modelled from the spec: the options of [Public(clientID).AuthCodeURL]
    (their declarations are not among the source files; section 4.2:
    [with_redirect_url], [with_scopes], [with_url_params],
    [with_provider_options]). *)
Inductive AuthCodeURLOption : Type :=
| OptRedirectURL (redirectURL : string)
| OptScopes (scopes : list string)
| OptURLParams (params : gmap string string)
| OptProviderOptions (opts : gmap string string).

(** Modelled from the spec: what the options have set when the URL is built. *)
Record AuthCodeURLOptions : Type := {
  o_redirectURL : string;
  o_scopes : list string;
  o_params : gmap string string
}.

(** Modelled from the spec: what an option sets (section 4.2; section 3: the
    configured [auth_url_params] are merged into every authorization URL).  A
    later [WithURLParams] overrides an earlier one on a shared key. *)
Definition ApplyOption (o : AuthCodeURLOptions) (opt : AuthCodeURLOption)
  : AuthCodeURLOptions :=
  match opt with
  | OptRedirectURL u =>
      {| o_redirectURL := u; o_scopes := o_scopes o; o_params := o_params o |}
  | OptScopes s =>
      {| o_redirectURL := o_redirectURL o; o_scopes := s; o_params := o_params o |}
  | OptURLParams m =>
      {| o_redirectURL := o_redirectURL o; o_scopes := o_scopes o;
         o_params := m ∪ o_params o |}
  | OptProviderOptions _ => o
  end.

(** Modelled from the spec: [Public(clientID).AuthCodeURL(state, opts...)]
    (section 4.2: the options set the redirect URL, the scopes and the URL
    parameters of the builder, whose configuration yields [(url, ok)]). *)
Definition PublicAuthCodeURL (p : provider.Provider) (clientID state : string)
    (opts : list AuthCodeURLOption) : option ParsedURL :=
  let o := fold_left ApplyOption opts
             {| o_redirectURL := ""; o_scopes := []; o_params := ∅ |} in
  let cb := WithScopes (o_scopes o)
              (WithRedirectURL (o_redirectURL o)
                 (NewAuthCodeURLConfigBuilder p clientID)) in
  Some (AuthCodeURL cb state (map_to_list (o_params o))).

Section WithConstants.

(** Constants of the [persistence] package whose declarations are not among
    the source files. *)
Variable ConfigVersionLatest : Z.
Variable DefaultConfigTuningEntry : ConfigTuningEntry.

(** The [Data] literal of [configReadOperation]. *)
Definition configReadData (cfg : ConfigEntry) : gmap string Value :=
  let t := Tuning cfg in
  list_to_map [
    ("client_id", VString (ClientID cfg));
    ("auth_url_params", VKVPairs (AuthURLParams cfg));
    ("provider", VString (ProviderName cfg));
    ("provider_version", VInt (ProviderVersion cfg));
    ("provider_options", VKVPairs (ProviderOptions cfg));
    ("tune_provider_timeout_seconds", VInt (ProviderTimeoutSeconds t));
    ("tune_provider_timeout_expiry_leeway_factor",
       VFloat (ProviderTimeoutExpiryLeewayFactor t));
    ("tune_refresh_check_interval_seconds", VInt (RefreshCheckIntervalSeconds t));
    ("tune_refresh_expiry_delta_factor", VFloat (RefreshExpiryDeltaFactor t));
    ("tune_reap_check_interval_seconds", VInt (ReapCheckIntervalSeconds t));
    ("tune_reap_dry_run", VBool (ReapDryRun t));
    ("tune_reap_non_refreshable_seconds", VInt (ReapNonRefreshableSeconds t));
    ("tune_reap_revoked_seconds", VInt (ReapRevokedSeconds t));
    ("tune_reap_transient_error_attempts", VInt (ReapTransientErrorAttempts t));
    ("tune_reap_transient_error_seconds", VInt (ReapTransientErrorSeconds t))
  ].

Definition configReadOperation (b : backend) : backend * Result :=
  match getCache b with
  | (b', inl err) => (b', (None, Some err))
  | (b', inr None) => (b', (None, None))
  | (b', inr (Some c)) => (b', (Some (DataResponse (configReadData (Config c))), None))
  end.

(** The [Tuning] literal of [configUpdateOperation]. *)
Definition requestedTuning (data : ConfigFieldData) : ConfigTuningEntry :=
  let d := DefaultConfigTuningEntry in
  {| ProviderTimeoutSeconds :=
       Get (ProviderTimeoutSeconds d) (tune_provider_timeout_seconds data);
     ProviderTimeoutExpiryLeewayFactor :=
       Get (ProviderTimeoutExpiryLeewayFactor d)
           (tune_provider_timeout_expiry_leeway_factor data);
     RefreshCheckIntervalSeconds :=
       Get (RefreshCheckIntervalSeconds d) (tune_refresh_check_interval_seconds data);
     RefreshExpiryDeltaFactor :=
       Get (RefreshExpiryDeltaFactor d) (tune_refresh_expiry_delta_factor data);
     ReapCheckIntervalSeconds :=
       Get (ReapCheckIntervalSeconds d) (tune_reap_check_interval_seconds data);
     ReapDryRun := Get (ReapDryRun d) (tune_reap_dry_run data);
     ReapNonRefreshableSeconds :=
       Get (ReapNonRefreshableSeconds d) (tune_reap_non_refreshable_seconds data);
     ReapRevokedSeconds := Get (ReapRevokedSeconds d) (tune_reap_revoked_seconds data);
     ReapTransientErrorAttempts :=
       Get (ReapTransientErrorAttempts d) (tune_reap_transient_error_attempts data);
     ReapTransientErrorSeconds :=
       Get (ReapTransientErrorSeconds d) (tune_reap_transient_error_seconds data) |}.

(** The sanity checks for the tuning options, in the order of the [switch];
    [None] when no case applies. *)
Definition checkTuning (t : ConfigTuningEntry) : option Response :=
  if PrimFloat.ltb (ProviderTimeoutExpiryLeewayFactor t) 1 then
    Some (ErrorResponse "provider timeout expiry leeway factor must be at least 1.0" [])
  else if bool_decide (RefreshCheckIntervalSeconds t > Seconds (90 * 24 * Hour)) then
    Some (ErrorResponse "refresh check interval can be at most 90 days" [])
  else if PrimFloat.ltb (RefreshExpiryDeltaFactor t) 1 then
    Some (ErrorResponse "refresh expiry delta factor must be at least 1.0" [])
  else if bool_decide (ReapCheckIntervalSeconds t > Seconds (180 * 24 * Hour)) then
    Some (ErrorResponse "reap check interval can be at most 180 days" [])
  else if bool_decide (ReapTransientErrorAttempts t < 0) then
    Some (ErrorResponse "reap transient error attempts cannot be negative" [])
  else None.

Definition configUpdateOperation (b : backend) (data : ConfigFieldData)
  : backend * Result :=
  match client_id data with
  | None => (b, (Some (ErrorResponse "missing client ID" []), None))
  | Some clientID =>
  match provider_name data with
  | None => (b, (Some (ErrorResponse "missing provider" []), None))
  | Some providerName =>
  match New (providerRegistry b) providerName (Get ∅ (provider_options data)) with
  | (providerOptions, inl err) =>
      if errors_Is err ErrNoSuchProvider then
        (b, (Some (ErrorResponse "provider %q does not exist" [providerName]), None))
      else if MarkedUser err then (b, (Some (ErrorResponseOf err), None))
      else (b, (None, Some err))
  | (providerOptions, inr p) =>
      let c := {| Version := ConfigVersionLatest;
                  ClientID := clientID;
                  ClientSecret := Get "" (client_secret data);
                  AuthURLParams := Get ∅ (auth_url_params data);
                  ProviderName := providerName;
                  ProviderVersion := provider.Version p;
                  ProviderOptions := providerOptions;
                  Tuning := requestedTuning data |} in
      match checkTuning (Tuning c) with
      | Some resp => (b, (Some resp, None))
      | None =>
          match WriteConfig (storage b) c with
          | inl err => (b, (None, Some err))
          | inr st => (reset (withStorage b st (EvWriteConfig c)), (None, None))
          end
      end
  end end end.

Definition configDeleteOperation (b : backend) : backend * Result :=
  match DeleteConfig (storage b) with
  | inl err => (b, (None, Some err))
  | inr st => (reset (withStorage b st EvDeleteConfig), (None, None))
  end.

Definition configAuthCodeURLUpdateOperation (b : backend) (data : AuthCodeURLFieldData)
  : backend * Result :=
  match getCache b with
  | (b', inl err) => (b', (None, Some err))
  | (b', inr None) => (b', (Some (ErrorResponse "not configured" []), None))
  | (b', inr (Some c)) =>
      match acu_state data with
      | None => (b', (Some (ErrorResponse "missing state" []), None))
      | Some state =>
          match PublicAuthCodeURL (Provider c) (ClientID (Config c)) state
                  [ OptRedirectURL (Get "" (acu_redirect_url data));
                    OptScopes (Get [] (acu_scopes data));
                    OptURLParams (Get ∅ (acu_auth_url_params data));
                    OptURLParams (AuthURLParams (Config c));
                    OptProviderOptions (Get ∅ (acu_provider_options data)) ] with
          | None =>
              (b', (Some (ErrorResponse "authorization code URL not available" []), None))
          | Some url =>
              (b', (Some (DataResponse {[ "url" := VURL url ]}), None))
          end
      end
  end.

End WithConstants.

End backend.

(** ** The basic provider *)

Module basic.
Import net provider.

(** Modelled from the spec: the provider that [provider.BasicFactory] builds
    ([pkg/provider/basic.go] is not among the source files; section 4.2: the
    basic adapter works on a configured endpoint pair, and its authorization
    URLs come from the conforming builder). *)
Definition basicProvider (e : Endpoint) (vsn : Z) : Provider :=
  {| Version := vsn;
     NewAuthCodeURLConfigBuilder := NewConformingAuthCodeURLConfigBuilder e |}.

(** Modelled from the spec: [provider.BasicFactory] (section 4.1: a factory
    accepts the latest version and its own, and rejects unknown option keys;
    the basic provider declares no option). *)
Definition BasicFactory (e : Endpoint) (vsn : Z) : FactoryFunc :=
  fun vsn' options =>
    if bool_decide (vsn' = VersionLatest) || bool_decide (vsn' = vsn) then
      match map_to_list options with
      | (k, _) :: _ => (options, inl (OptionError k "unexpected"))
      | [] => (options, inr (basicProvider e vsn))
      end
    else (options, inl ErrNoProviderWithVersion).

(** *** The exchange configuration *)

(** [oauth2.Token.Type]. *)
Definition TokenTypeOf (t : Token) : string :=
  if EqualFold (TokenType t) "bearer" then "Bearer"
  else if EqualFold (TokenType t) "mac" then "MAC"
  else if EqualFold (TokenType t) "basic" then "Basic"
  else if bool_decide (TokenType t = "") then "Bearer"
  else TokenType t.

(** Modelled from the spec: the exchange configuration of the basic provider
    ([pkg/provider/basic.go] is not among the source files; section 4.2:
    [exchange_builder(client_id, client_secret)] yields a configuration with
    [exchange] and [refresh], on the client-id/secret pair and the configured
    endpoint pair). *)
Record ExchangeConfig : Type := {
  ec_endpoint : Endpoint;
  ec_clientID : string;
  ec_clientSecret : string;
  ec_redirectURL : string;
  ec_transport : Transport
}.

(** Modelled from the spec: [exchange_builder(client_id, client_secret)]
    (section 4.2), on the endpoint pair and the HTTP client of the context. *)
Definition NewExchangeConfigBuilder (e : Endpoint) (tr : Transport)
    (clientID clientSecret : string) : ExchangeConfig :=
  {| ec_endpoint := e; ec_clientID := clientID; ec_clientSecret := clientSecret;
     ec_redirectURL := ""; ec_transport := tr |}.

(** Modelled from the spec: the redirect URL of the exchange builder. *)
Definition ExchangeWithRedirectURL (redirectURL : string) (c : ExchangeConfig)
  : ExchangeConfig :=
  {| ec_endpoint := ec_endpoint c; ec_clientID := ec_clientID c;
     ec_clientSecret := ec_clientSecret c; ec_redirectURL := redirectURL;
     ec_transport := ec_transport c |}.

(** Modelled from the spec: what the token endpoint answers, read as a token
    (section 3: [access_token], [refresh_token], [token_type] and an [expiry];
    scenario 1 of section 8: the answer is a form with these fields and
    [expires_in], in seconds from now). *)
Definition tokenOfAnswer (now : Z) (resp : HTTPResponse) : error + Token :=
  if bool_decide (StatusCode resp < 200) || bool_decide (StatusCode resp > 299)
  then inl RetrieveError
  else
    match ParseQuery (Body resp) with
    | None => inl RetrieveError
    | Some vals =>
        if bool_decide (ValuesGet vals "access_token" = "") then inl RetrieveError
        else inr {| AccessToken := ValuesGet vals "access_token";
                    TokenType := ValuesGet vals "token_type";
                    RefreshToken := ValuesGet vals "refresh_token";
                    Expiry := match Atoi (ValuesGet vals "expires_in") with
                              | Some 0 | None => None
                              | Some expires => Some (now + expires * Second)
                              end |}
    end.

(** Modelled from the spec: one call of the token endpoint (section 4.2: the
    basic adapter uses the client-id/secret pair and the configured endpoint
    pair).  The client credentials go in the form, as
    [oauth2.AuthStyleInParams] of the test's endpoint asks. *)
Definition retrieveToken (c : ExchangeConfig) (now : Z) (form : Values) : error + Token :=
  tokenOfAnswer now
    (ec_transport c
       {| URL := TokenURL (ec_endpoint c);
          Form := <["client_secret" := ec_clientSecret c]>
                    (<["client_id" := ec_clientID c]> form) |}).

(** Modelled from the spec: [exchange(code, auth_code_opts...)]. *)
Definition Exchange (c : ExchangeConfig) (now : Z) (code : string)
    (opts : list (string * string)) : error + Token :=
  let v0 : Values := {[ "grant_type" := "authorization_code"; "code" := code ]} in
  let v1 := if bool_decide (ec_redirectURL c = "") then v0
            else <["redirect_uri" := ec_redirectURL c]> v0 in
  retrieveToken c now (SetAuthURLParams opts v1).

(** Modelled from the spec: [refresh(token)] (section 4.2: the token source
    returns a valid token, refreshing under the hood; a refresh answer
    without a refresh token keeps the one at hand). *)
Definition Refresh (c : ExchangeConfig) (now : Z) (t : Token) : error + Token :=
  if Valid now t then inr t
  else if bool_decide (RefreshToken t = "") then inl RetrieveError
  else
    match retrieveToken c now
            {[ "grant_type" := "refresh_token"; "refresh_token" := RefreshToken t ]} with
    | inl err => inl err
    | inr tk =>
        inr {| AccessToken := AccessToken tk; TokenType := TokenType tk;
               RefreshToken := if bool_decide (RefreshToken tk = "") then RefreshToken t
                               else RefreshToken tk;
               Expiry := Expiry tk |}
    end.

End basic.

(** ** The test of the basic exchange configuration *)

Module basic_test.
Import net provider.

(** What the handler of [TestBasicExchangeConfig] leaves behind: the answer
    written, and the assertions that have failed on the way. *)
Record Served : Type := { Answer : HTTPResponse; Failed : list string }.

Definition assertEqual (expected actual : string) (failed : list string) : list string :=
  if bool_decide (expected = actual) then failed
  else failed ++ ["Not equal: " +:+ expected +:+ " / " +:+ actual].

(** The handler [h]. *)
Definition h (r : Request) : Served :=
  if bool_decide (URLPath (URL r) = "/token") then
    let data := Form r in
    let f0 := assertEqual "foo" (ValuesGet data "client_id") [] in
    let f1 := assertEqual "bar" (ValuesGet data "client_secret") f0 in
    if bool_decide (ValuesGet data "grant_type" = "authorization_code") then
      let f2 := assertEqual "authorization_code" (ValuesGet data "grant_type") f1 in
      let f3 := assertEqual "123456" (ValuesGet data "code") f2 in
      let f4 := assertEqual "http://example.com/redirect"
                  (ValuesGet data "redirect_uri") f3 in
      let f5 := assertEqual "quux" (ValuesGet data "baz") f4 in
      {| Answer :=
           {| StatusCode := 200;
              Body := "access_token=abcd&refresh_token=efgh&token_type=bearer&expires_in=5" |};
         Failed := f5 |}
    else if bool_decide (ValuesGet data "grant_type" = "refresh_token") then
      let f2 := assertEqual "efgh" (ValuesGet data "refresh_token") f1 in
      {| Answer :=
           {| StatusCode := 200;
              Body := "access_token=ijkl&refresh_token=efgh&token_type=bearer&expires_in=3600" |};
         Failed := f2 |}
    else
      {| Answer := {| StatusCode := 200; Body := "" |};
         Failed := f1 ++ ["unexpected `grant_type` value"] |}
  else {| Answer := {| StatusCode := 404; Body := "" |}; Failed := [] |}.

Definition basicEndpoint : Endpoint :=
  {| AuthURL := "http://localhost/authorize"; TokenURL := "http://localhost/token" |}.

(** The client [c] of the test. *)
Definition c : testutil.MockRoundTripper :=
  {| testutil.Handler := fun r => Answer (h r) |}.

(** [conf]: the exchange configuration of the test. *)
Definition conf : basic.ExchangeConfig :=
  basic.ExchangeWithRedirectURL "http://example.com/redirect"
    (basic.NewExchangeConfigBuilder basicEndpoint (testutil.RoundTrip c) "foo" "bar").

End basic_test.

(** ** Scenarios *)

Module scenarios.
Import provider persistence backend.

(** A tuning entry to stand for [persistence.DefaultConfigTuningEntry]. *)
Definition sampleTuning : ConfigTuningEntry :=
  {| ProviderTimeoutSeconds := 30;
     ProviderTimeoutExpiryLeewayFactor := 1.5;
     RefreshCheckIntervalSeconds := 60;
     RefreshExpiryDeltaFactor := 1.25;
     ReapCheckIntervalSeconds := 300;
     ReapDryRun := false;
     ReapNonRefreshableSeconds := 86400;
     ReapRevokedSeconds := 3600;
     ReapTransientErrorAttempts := 10;
     ReapTransientErrorSeconds := 86400 |}.

(** [basicTestFactory] of [basic_test.go]. *)
Definition basicEndpoint : Endpoint := basic_test.basicEndpoint.

Definition basicTestFactory : FactoryFunc := basic.BasicFactory basicEndpoint 1.

(** A factory whose provider cannot be built for a reason of its own (its
    endpoints cannot be retrieved). *)
Definition unreachableFactory : FactoryFunc :=
  fun _ options => (options, inl RetrieveError).

Definition registry : Registry :=
  {[ "basic" := basicTestFactory;
     "mock" := testutil.MockFactory map_to_list [];
     "unreachable" := unreachableFactory ]}.

Definition emptyStorage : Storage := {| kv := ∅; fault := None |}.

Definition emptyBackend : backend.backend :=
  {| providerRegistry := registry; storage := emptyStorage;
     cached := None; events := [] |}.

Definition emptyRequest : ConfigFieldData :=
  {| client_id := None; client_secret := None; auth_url_params := None;
     provider_name := None; provider_options := None;
     tune_provider_timeout_seconds := None;
     tune_provider_timeout_expiry_leeway_factor := None;
     tune_refresh_check_interval_seconds := None;
     tune_refresh_expiry_delta_factor := None;
     tune_reap_check_interval_seconds := None;
     tune_reap_dry_run := None;
     tune_reap_non_refreshable_seconds := None;
     tune_reap_revoked_seconds := None;
     tune_reap_transient_error_attempts := None;
     tune_reap_transient_error_seconds := None |}.

(** A request that names a client, a provider and a leeway factor. *)
Definition request (providerName : string) (leeway : option float) : ConfigFieldData :=
  {| client_id := Some "foo"; client_secret := Some "bar";
     auth_url_params := Some {[ "audience" := "x" ]};
     provider_name := Some providerName; provider_options := None;
     tune_provider_timeout_seconds := None;
     tune_provider_timeout_expiry_leeway_factor := leeway;
     tune_refresh_check_interval_seconds := None;
     tune_refresh_expiry_delta_factor := None;
     tune_reap_check_interval_seconds := None;
     tune_reap_dry_run := None;
     tune_reap_non_refreshable_seconds := None;
     tune_reap_revoked_seconds := None;
     tune_reap_transient_error_attempts := None;
     tune_reap_transient_error_seconds := None |}.

Definition basicConfig : ConfigEntry :=
  {| Version := 1; ClientID := "foo"; ClientSecret := "bar";
     AuthURLParams := {[ "audience" := "x" ]};
     ProviderName := "basic"; ProviderVersion := 1; ProviderOptions := ∅;
     Tuning := sampleTuning |}.

(** The backend after [config] has been written with the basic provider. *)
Definition configuredBackend : backend.backend :=
  (configUpdateOperation 1 sampleTuning emptyBackend (request "basic" None)).1.

(** The same, once the cache has been filled. *)
Definition cachedBackend : backend.backend := (getCache configuredBackend).1.

(** A store whose ConfigEntry is pinned at version 2 of the mock provider,
    while the registry builds version 1. *)
Definition pinnedConfig : ConfigEntry :=
  {| Version := 1; ClientID := "foo"; ClientSecret := "bar";
     AuthURLParams := ∅;
     ProviderName := "mock"; ProviderVersion := 2; ProviderOptions := ∅;
     Tuning := sampleTuning |}.

Definition pinnedBackend : backend.backend :=
  {| providerRegistry := registry;
     storage := {| kv := {[ configKey := ConfigValue pinnedConfig ]}; fault := None |};
     cached := None; events := [] |}.

(** A configured store that also holds the credential [alice]. *)
Definition aliceEntry : Entry :=
  CredentialValue
    {| Token := {| AccessToken := "abcd"; TokenType := "bearer";
                   RefreshToken := "efgh"; Expiry := Some (5 * Second) |};
       ExtraData := ∅ |}.

Definition credentialBackend : backend.backend :=
  {| providerRegistry := registry;
     storage := {| kv := {[ configKey := ConfigValue basicConfig;
                            "creds/alice" := aliceEntry ]};
                   fault := None |};
     cached := None; events := [] |}.

Definition noState : AuthCodeURLFieldData :=
  {| acu_auth_url_params := None; acu_redirect_url := None; acu_scopes := None;
     acu_state := None; acu_provider_options := None |}.

(** A mock that expects the option [a] to be [b]. *)
Definition mockExpectingA : testutil.mock :=
  testutil.newMock [testutil.MockWithExpectedOptionValue "a" "b"].

(** A client whose exchange always answers with the token [abcd]. *)
Definition staticToken : provider.Token :=
  {| provider.AccessToken := "abcd"; provider.TokenType := "bearer";
     provider.RefreshToken := "efgh";
     provider.Expiry := Some (100 * provider.Second) |}.

Definition mockWithExchange : testutil.mock :=
  testutil.newMock
    [testutil.MockWithExchange {| testutil.ID := "foo"; testutil.Secret := "bar" |}
       (testutil.StaticMockExchange staticToken)].

Definition mockState0 : testutil.MockState :=
  {| testutil.owner := mockWithExchange;
     testutil.world := {| testutil.now := 0 |};
     testutil.calls := [] |}.

Definition mockConfig : testutil.mockExchangeConfig :=
  testutil.Build (testutil.NewExchangeConfigBuilder "foo" "bar") mockWithExchange.

(** The request of scenario 2: state [s], the redirect URL, the scopes [a],
    [b], [c] and the extra URL parameter [baz=quux]. *)
Definition authCodeURLRequest : AuthCodeURLFieldData :=
  {| acu_auth_url_params := Some {[ "baz" := "quux" ]};
     acu_redirect_url := Some "http://example.com/redirect";
     acu_scopes := Some ["a"; "b"; "c"];
     acu_state := Some "s";
     acu_provider_options := None |}.

End scenarios.

(** * Specification predicates *)

Section Predicates.
Import provider persistence backend testutil.

(** The three ways in which [options] can fail the expected options [E], with
    the message [factory] gives for each. *)
Definition BadOption (E options : gmap string string) (k msg : string) : Prop :=
  (∃ ev, E !! k = Some ev ∧ options !! k = None ∧ msg = "not found")
  ∨ (∃ ev av, E !! k = Some ev ∧ options !! k = Some av ∧ av ≠ ev
       ∧ msg = "expected " +:+ Quote ev +:+ ", got " +:+ Quote av)
  ∨ (E !! k = None ∧ is_Some (options !! k) ∧ msg = "unexpected").

Definition acceptedVersion (m : mock) (v : Z) : Prop := v = -1 ∨ v = vsn m.

(** The five tuning bounds, as violations and as what must hold. *)
Definition violatesBound (t : ConfigTuningEntry) : Prop :=
  PrimFloat.ltb (ProviderTimeoutExpiryLeewayFactor t) 1 = true
  ∨ PrimFloat.ltb (RefreshExpiryDeltaFactor t) 1 = true
  ∨ RefreshCheckIntervalSeconds t > 90 * 24 * 60 * 60
  ∨ ReapCheckIntervalSeconds t > 180 * 24 * 60 * 60
  ∨ ReapTransientErrorAttempts t < 0.

Definition allBoundsHold (t : ConfigTuningEntry) : Prop :=
  PrimFloat.ltb (ProviderTimeoutExpiryLeewayFactor t) 1 = false
  ∧ PrimFloat.ltb (RefreshExpiryDeltaFactor t) 1 = false
  ∧ RefreshCheckIntervalSeconds t ≤ 90 * 24 * 60 * 60
  ∧ ReapCheckIntervalSeconds t ≤ 180 * 24 * 60 * 60
  ∧ 0 ≤ ReapTransientErrorAttempts t.

Definition withClientSecret (secret : string) (c : ConfigEntry) : ConfigEntry :=
  {| Version := Version c; ClientID := ClientID c; ClientSecret := secret;
     AuthURLParams := AuthURLParams c; ProviderName := ProviderName c;
     ProviderVersion := ProviderVersion c; ProviderOptions := ProviderOptions c;
     Tuning := Tuning c |}.

Definition entryWithClientSecret (secret : string) (e : Entry) : Entry :=
  match e with
  | ConfigValue c => ConfigValue (withClientSecret secret c)
  | CredentialValue c => CredentialValue c
  end.

Definition cacheWithClientSecret (secret : string) (c : cache) : cache :=
  {| Config := withClientSecret secret (Config c); Provider := Provider c |}.

(** The same backend, with another client secret in the stored ConfigEntry
    (and in the cached copy of it). *)
Definition backendWithClientSecret (secret : string) (b : backend.backend)
  : backend.backend :=
  {| providerRegistry := providerRegistry b;
     storage := {| kv := alter (entryWithClientSecret secret) configKey (kv (storage b));
                   fault := fault (storage b) |};
     cached := cacheWithClientSecret secret <$> cached b;
     events := events b |}.

(** The keys of the data that [configReadOperation] answers with. *)
Definition configReadKeys : gset string :=
  list_to_set [
    "client_id"; "auth_url_params"; "provider"; "provider_version"; "provider_options";
    "tune_provider_timeout_seconds"; "tune_provider_timeout_expiry_leeway_factor";
    "tune_refresh_check_interval_seconds"; "tune_refresh_expiry_delta_factor";
    "tune_reap_check_interval_seconds"; "tune_reap_dry_run";
    "tune_reap_non_refreshable_seconds"; "tune_reap_revoked_seconds";
    "tune_reap_transient_error_attempts"; "tune_reap_transient_error_seconds" ].

(** The token that the exchange of the test gives at the instant [now]. *)
Definition exchangedToken (now : Z) : provider.Token :=
  {| AccessToken := "abcd"; TokenType := "bearer"; RefreshToken := "efgh";
     Expiry := Some (now + 5 * Second) |}.

Definition refreshedToken (now : Z) : provider.Token :=
  {| AccessToken := "ijkl"; TokenType := "bearer"; RefreshToken := "efgh";
     Expiry := Some (now + 3600 * Second) |}.

Variable ConfigVersionLatest : Z.
Variable DefaultConfigTuningEntry : ConfigTuningEntry.

Local Abbreviation requestedTuning := (backend.requestedTuning DefaultConfigTuningEntry).

(** The outcomes of [configUpdateOperation], one per return statement. *)
Inductive UpdateOutcome (b : backend.backend) (data : ConfigFieldData)
  : backend.backend → Result → Prop :=
| UpdateMissingClientID :
    client_id data = None →
    UpdateOutcome b data b (Some (ErrorResponse "missing client ID" []), None)
| UpdateMissingProvider clientID :
    client_id data = Some clientID → provider_name data = None →
    UpdateOutcome b data b (Some (ErrorResponse "missing provider" []), None)
| UpdateNoSuchProvider clientID name opts err :
    client_id data = Some clientID → provider_name data = Some name →
    New (providerRegistry b) name (Get ∅ (provider_options data)) = (opts, inl err) →
    errors_Is err ErrNoSuchProvider = true →
    UpdateOutcome b data b
      (Some (ErrorResponse "provider %q does not exist" [name]), None)
| UpdateUserError clientID name opts err :
    client_id data = Some clientID → provider_name data = Some name →
    New (providerRegistry b) name (Get ∅ (provider_options data)) = (opts, inl err) →
    errors_Is err ErrNoSuchProvider = false → MarkedUser err = true →
    UpdateOutcome b data b (Some (ErrorResponseOf err), None)
| UpdateProviderError clientID name opts err :
    client_id data = Some clientID → provider_name data = Some name →
    New (providerRegistry b) name (Get ∅ (provider_options data)) = (opts, inl err) →
    errors_Is err ErrNoSuchProvider = false → MarkedUser err = false →
    UpdateOutcome b data b (None, Some err)
| UpdateBadTuning clientID name opts p text :
    client_id data = Some clientID → provider_name data = Some name →
    New (providerRegistry b) name (Get ∅ (provider_options data)) = (opts, inr p) →
    checkTuning (requestedTuning data) = Some (ErrorResponse text []) →
    UpdateOutcome b data b (Some (ErrorResponse text []), None)
| UpdateWriteError clientID name opts p err :
    client_id data = Some clientID → provider_name data = Some name →
    New (providerRegistry b) name (Get ∅ (provider_options data)) = (opts, inr p) →
    allBoundsHold (requestedTuning data) →
    fault (storage b) = Some err →
    UpdateOutcome b data b (None, Some err)
| UpdateWritten clientID name opts p c :
    client_id data = Some clientID → provider_name data = Some name →
    New (providerRegistry b) name (Get ∅ (provider_options data)) = (opts, inr p) →
    allBoundsHold (requestedTuning data) →
    fault (storage b) = None →
    c = {| Version := ConfigVersionLatest;
           ClientID := clientID;
           ClientSecret := Get "" (client_secret data);
           AuthURLParams := Get ∅ (auth_url_params data);
           ProviderName := name;
           ProviderVersion := provider.Version p;
           ProviderOptions := opts;
           Tuning := requestedTuning data |} →
    UpdateOutcome b data
      {| providerRegistry := providerRegistry b;
         storage := {| kv := <[configKey := ConfigValue c]> (kv (storage b));
                       fault := None |};
         cached := None;
         events := (events b ++ [EvWriteConfig c]) ++ [EvReset] |}
      (None, None).

End Predicates.

(** * The handlers on the framework's field data *)

(** [framework.FieldData] of the Vault SDK, as far as the handlers of
    [path_config.go] use it. *)
Module framework.

Inductive FieldType : Type :=
| TypeString
| TypeInt
| TypeBool
| TypeFloat
| TypeKVPairs
| TypeDurationSecond
| TypeCommaStringSlice.

(** The [interface{}] values that [FieldData] hands out. *)
Inductive FieldValue : Type :=
| FString (s : string)
| FInt (z : Z)
| FBool (b : bool)
| FFloat (f : float)
| FKVPairs (m : gmap string string)
| FStrings (l : list string).

Record FieldSchema : Type := {
  Type_ : FieldType;
  Default : option FieldValue
}.

(** [FieldType.Zero]. *)
Definition Zero (t : FieldType) : FieldValue :=
  match t with
  | TypeString => FString ""
  | TypeInt => FInt 0
  | TypeBool => FBool false
  | TypeFloat => FFloat 0
  | TypeKVPairs => FKVPairs ∅
  | TypeDurationSecond => FInt 0
  | TypeCommaStringSlice => FStrings []
  end.

(** [time.Duration] is an [int64]. *)
Definition wrap64 (z : Z) : Z := (z + 2 ^ 63) `mod` 2 ^ 64 - 2 ^ 63.

(** [parseutil.ParseDurationSecond] on an [int]: [time.Duration(inp) *
    time.Second].  The other kinds of input are not used by the schemas of
    [path_config.go] and count as unparsable here. *)
Definition ParseDurationSecond (v : FieldValue) : option Z :=
  match v with
  | FInt inp => Some (wrap64 (inp * provider.Second))
  | _ => None
  end.

(** [FieldSchema.DefaultOrZero]. *)
Definition DefaultOrZero (s : FieldSchema) : FieldValue :=
  match Default s with
  | Some dv =>
      match Type_ s with
      | TypeDurationSecond =>
          match ParseDurationSecond dv with
          | None => Zero (Type_ s)
          | Some resultDur => FInt (provider.Seconds resultDur)
          end
      | _ => dv
      end
  | None => Zero (Type_ s)
  end.

(** [Raw] holds the values as [GetOkErr] parses them: the framework has
    validated the request against the schema before it calls a handler, so a
    read does not fail on parsing. *)
Record FieldData : Type := {
  Raw : gmap string FieldValue;
  Schema : gmap string FieldSchema
}.

(** [FieldData.GetOk]: [(nil, false)] for a field that is not in the schema
    or not in the request. *)
Definition GetOk (d : FieldData) (k : string) : option FieldValue :=
  match Schema d !! k with
  | None => None
  | Some _ => Raw d !! k
  end.

(** [FieldData.Get]; [None] is the panic on a field that is not in the
    schema. *)
Definition Get (d : FieldData) (k : string) : option FieldValue :=
  match Schema d !! k with
  | None => None
  | Some schema =>
      match GetOk d k with
      | Some value => Some value
      | None => Some (DefaultOrZero schema)
      end
  end.

(** The type assertions [v.(string)], [v.(int)], [v.(bool)], [v.(float64)],
    [v.(map[string]string)] and [v.([]string)]; [None] is the panic. *)
Definition asString (v : FieldValue) : option string :=
  match v with FString s => Some s | _ => None end.
Definition asInt (v : FieldValue) : option Z :=
  match v with FInt z => Some z | _ => None end.
Definition asBool (v : FieldValue) : option bool :=
  match v with FBool b => Some b | _ => None end.
Definition asFloat (v : FieldValue) : option float :=
  match v with FFloat f => Some f | _ => None end.
Definition asKVPairs (v : FieldValue) : option (gmap string string) :=
  match v with FKVPairs m => Some m | _ => None end.
Definition asStrings (v : FieldValue) : option (list string) :=
  match v with FStrings l => Some l | _ => None end.

(** The Go type of the values of a field type. *)
Definition hasType (t : FieldType) (v : FieldValue) : bool :=
  match t, v with
  | TypeString, FString _
  | TypeInt, FInt _
  | TypeBool, FBool _
  | TypeFloat, FFloat _
  | TypeKVPairs, FKVPairs _
  | TypeDurationSecond, FInt _
  | TypeCommaStringSlice, FStrings _ => true
  | _, _ => false
  end.

End framework.

(** The handlers of [path_config.go] on [framework.FieldData], with the
    schemas of the two paths.  A result of [None] is a panic. *)
Module handlers.
Import provider persistence backend framework.

(** [configFields]. *)
Definition configFields (DefaultConfigTuningEntry : ConfigTuningEntry)
  : gmap string FieldSchema :=
  let d := DefaultConfigTuningEntry in
  list_to_map [
    ("client_id", {| Type_ := TypeString; Default := None |});
    ("client_secret", {| Type_ := TypeString; Default := None |});
    ("auth_url_params", {| Type_ := TypeKVPairs; Default := None |});
    ("provider", {| Type_ := TypeString; Default := None |});
    ("provider_options", {| Type_ := TypeKVPairs; Default := None |});
    ("tune_provider_timeout_seconds",
       {| Type_ := TypeDurationSecond;
          Default := Some (FInt (ProviderTimeoutSeconds d)) |});
    ("tune_provider_timeout_expiry_leeway_factor",
       {| Type_ := TypeFloat;
          Default := Some (FFloat (ProviderTimeoutExpiryLeewayFactor d)) |});
    ("tune_refresh_check_interval_seconds",
       {| Type_ := TypeDurationSecond;
          Default := Some (FInt (RefreshCheckIntervalSeconds d)) |});
    ("tune_refresh_expiry_delta_factor",
       {| Type_ := TypeFloat;
          Default := Some (FFloat (RefreshExpiryDeltaFactor d)) |});
    ("tune_reap_check_interval_seconds",
       {| Type_ := TypeDurationSecond;
          Default := Some (FInt (ReapCheckIntervalSeconds d)) |});
    ("tune_reap_dry_run",
       {| Type_ := TypeBool; Default := Some (FBool (ReapDryRun d)) |});
    ("tune_reap_non_refreshable_seconds",
       {| Type_ := TypeDurationSecond;
          Default := Some (FInt (ReapNonRefreshableSeconds d)) |});
    ("tune_reap_revoked_seconds",
       {| Type_ := TypeDurationSecond;
          Default := Some (FInt (ReapRevokedSeconds d)) |});
    ("tune_reap_transient_error_attempts",
       {| Type_ := TypeInt;
          Default := Some (FInt (ReapTransientErrorAttempts d)) |});
    ("tune_reap_transient_error_seconds",
       {| Type_ := TypeDurationSecond;
          Default := Some (FInt (ReapTransientErrorSeconds d)) |})
  ].

(** [configAuthCodeURLFields]. *)
Definition configAuthCodeURLFields : gmap string FieldSchema :=
  list_to_map [
    ("auth_url_params", {| Type_ := TypeKVPairs; Default := None |});
    ("redirect_url", {| Type_ := TypeString; Default := None |});
    ("scopes", {| Type_ := TypeCommaStringSlice; Default := None |});
    ("state", {| Type_ := TypeString; Default := None |});
    ("provider_options", {| Type_ := TypeKVPairs; Default := None |})
  ].

Definition configUpdateOperation (ConfigVersionLatest : Z) (b : backend.backend)
    (data : FieldData) : option (backend.backend * Result) :=
  match GetOk data "client_id" with
  | None => Some (b, (Some (ErrorResponse "missing client ID" []), None))
  | Some clientID =>
  match GetOk data "provider" with
  | None => Some (b, (Some (ErrorResponse "missing provider" []), None))
  | Some providerName =>
  providerOptions ← Get data "provider_options" ≫= asKVPairs;
  providerName ← asString providerName;
  match New (providerRegistry b) providerName providerOptions with
  | (providerOptions, inl err) =>
      if errors_Is err ErrNoSuchProvider then
        Some (b, (Some (ErrorResponse "provider %q does not exist" [providerName]),
                  None))
      else if MarkedUser err then Some (b, (Some (ErrorResponseOf err), None))
      else Some (b, (None, Some err))
  | (providerOptions, inr p) =>
      clientID ← asString clientID;
      clientSecret ← Get data "client_secret" ≫= asString;
      authURLParams ← Get data "auth_url_params" ≫= asKVPairs;
      providerTimeoutSeconds ← Get data "tune_provider_timeout_seconds" ≫= asInt;
      providerTimeoutExpiryLeewayFactor ←
        Get data "tune_provider_timeout_expiry_leeway_factor" ≫= asFloat;
      refreshCheckIntervalSeconds ←
        Get data "tune_refresh_check_interval_seconds" ≫= asInt;
      refreshExpiryDeltaFactor ←
        Get data "tune_refresh_expiry_delta_factor" ≫= asFloat;
      reapCheckIntervalSeconds ← Get data "tune_reap_check_interval_seconds" ≫= asInt;
      reapDryRun ← Get data "tune_reap_dry_run" ≫= asBool;
      reapNonRefreshableSeconds ←
        Get data "tune_reap_non_refreshable_seconds" ≫= asInt;
      reapRevokedSeconds ← Get data "tune_reap_revoked_seconds" ≫= asInt;
      reapTransientErrorAttempts ←
        Get data "tune_reap_transient_error_attempts" ≫= asInt;
      reapTransientErrorSeconds ←
        Get data "tune_reap_transient_error_seconds" ≫= asInt;
      let c := {| Version := ConfigVersionLatest;
                  ClientID := clientID;
                  ClientSecret := clientSecret;
                  AuthURLParams := authURLParams;
                  ProviderName := providerName;
                  ProviderVersion := provider.Version p;
                  ProviderOptions := providerOptions;
                  Tuning :=
                    {| ProviderTimeoutSeconds := providerTimeoutSeconds;
                       ProviderTimeoutExpiryLeewayFactor :=
                         providerTimeoutExpiryLeewayFactor;
                       RefreshCheckIntervalSeconds := refreshCheckIntervalSeconds;
                       RefreshExpiryDeltaFactor := refreshExpiryDeltaFactor;
                       ReapCheckIntervalSeconds := reapCheckIntervalSeconds;
                       ReapDryRun := reapDryRun;
                       ReapNonRefreshableSeconds := reapNonRefreshableSeconds;
                       ReapRevokedSeconds := reapRevokedSeconds;
                       ReapTransientErrorAttempts := reapTransientErrorAttempts;
                       ReapTransientErrorSeconds := reapTransientErrorSeconds |} |} in
      match checkTuning (Tuning c) with
      | Some resp => Some (b, (Some resp, None))
      | None =>
          match WriteConfig (storage b) c with
          | inl err => Some (b, (None, Some err))
          | inr st => Some (reset (withStorage b st (EvWriteConfig c)), (None, None))
          end
      end
  end end end.

Definition configAuthCodeURLUpdateOperation (b : backend.backend) (data : FieldData)
  : option (backend.backend * Result) :=
  match getCache b with
  | (b', inl err) => Some (b', (None, Some err))
  | (b', inr None) => Some (b', (Some (ErrorResponse "not configured" []), None))
  | (b', inr (Some c)) =>
      match GetOk data "state" with
      | None => Some (b', (Some (ErrorResponse "missing state" []), None))
      | Some state =>
          state ← asString state;
          redirectURL ← Get data "redirect_url" ≫= asString;
          scopes ← Get data "scopes" ≫= asStrings;
          authURLParams ← Get data "auth_url_params" ≫= asKVPairs;
          providerOptions ← Get data "provider_options" ≫= asKVPairs;
          match PublicAuthCodeURL (Provider c) (ClientID (Config c)) state
                  [ OptRedirectURL redirectURL;
                    OptScopes scopes;
                    OptURLParams authURLParams;
                    OptURLParams (AuthURLParams (Config c));
                    OptProviderOptions providerOptions ] with
          | None =>
              Some (b', (Some (ErrorResponse "authorization code URL not available" []),
                         None))
          | Some url =>
              Some (b', (Some (DataResponse {[ "url" := VURL url ]}), None))
          end
      end
  end.

(** The request of the [config] path as the typed record of module
    [backend]: a field is there when the request has it with the type that
    the handler asserts. *)
Definition configFieldData (data : FieldData) : ConfigFieldData :=
  {| client_id := GetOk data "client_id" ≫= asString;
     client_secret := GetOk data "client_secret" ≫= asString;
     auth_url_params := GetOk data "auth_url_params" ≫= asKVPairs;
     provider_name := GetOk data "provider" ≫= asString;
     provider_options := GetOk data "provider_options" ≫= asKVPairs;
     tune_provider_timeout_seconds :=
       GetOk data "tune_provider_timeout_seconds" ≫= asInt;
     tune_provider_timeout_expiry_leeway_factor :=
       GetOk data "tune_provider_timeout_expiry_leeway_factor" ≫= asFloat;
     tune_refresh_check_interval_seconds :=
       GetOk data "tune_refresh_check_interval_seconds" ≫= asInt;
     tune_refresh_expiry_delta_factor :=
       GetOk data "tune_refresh_expiry_delta_factor" ≫= asFloat;
     tune_reap_check_interval_seconds :=
       GetOk data "tune_reap_check_interval_seconds" ≫= asInt;
     tune_reap_dry_run := GetOk data "tune_reap_dry_run" ≫= asBool;
     tune_reap_non_refreshable_seconds :=
       GetOk data "tune_reap_non_refreshable_seconds" ≫= asInt;
     tune_reap_revoked_seconds := GetOk data "tune_reap_revoked_seconds" ≫= asInt;
     tune_reap_transient_error_attempts :=
       GetOk data "tune_reap_transient_error_attempts" ≫= asInt;
     tune_reap_transient_error_seconds :=
       GetOk data "tune_reap_transient_error_seconds" ≫= asInt |}.

(** The request of the [config/auth_code_url] path as the typed record. *)
Definition authCodeURLFieldData (data : FieldData) : AuthCodeURLFieldData :=
  {| acu_auth_url_params := GetOk data "auth_url_params" ≫= asKVPairs;
     acu_redirect_url := GetOk data "redirect_url" ≫= asString;
     acu_scopes := GetOk data "scopes" ≫= asStrings;
     acu_state := GetOk data "state" ≫= asString;
     acu_provider_options := GetOk data "provider_options" ≫= asKVPairs |}.

End handlers.

(** * The mock token provider *)

(** [net/url]: query strings with several values for a key. *)
Module url.

(** [url.Values]. *)
Definition Values : Type := gmap string (list string).

(** [v[key]]: nil for a key that is not there. *)
Definition values (v : Values) (key : string) : list string := default [] (v !! key).

Definition upperhex (n : N) : ascii :=
  if (n <? 10)%N then ascii_of_N (48 + n) else ascii_of_N (55 + n).

(** [shouldEscape] in the mode of a query component: letters, digits and
    [-], [_], [.], [~] are left as they are. *)
Definition shouldEscape (c : ascii) : bool :=
  let n := N_of_ascii c in
  if ((97 <=? n) && (n <=? 122) || (65 <=? n) && (n <=? 90)
      || (48 <=? n) && (n <=? 57))%N then false
  else if ((n =? 45) || (n =? 95) || (n =? 46) || (n =? 126))%N then false
  else true.

(** [url.QueryEscape]. *)
Fixpoint QueryEscape (s : string) : string :=
  match s with
  | EmptyString => EmptyString
  | String c rest =>
      if shouldEscape c then
        if Ascii.eqb c " " then String "+" (QueryEscape rest)
        else
          let n := N_of_ascii c in
          String "%" (String (upperhex (n / 16)) (String (upperhex (n mod 16))
                                                    (QueryEscape rest)))
      else String c (QueryEscape rest)
  end.

(** The order of Go strings: by bytes. *)
Definition lessEq (a b : string) : Prop := Stdlib.Strings.String.leb a b = true.

#[global] Instance lessEq_dec : RelDecision lessEq :=
  λ a b, decide (Stdlib.Strings.String.leb a b = true).

(** [sort.Strings]. *)
Definition sortStrings (l : list string) : list string := merge_sort lessEq l.

(** [Values.Encode]: [key=value] for every value of every key, the keys in
    sorted order, with [&] in between. *)
Definition Encode (v : Values) : string :=
  let keys := sortStrings (map fst (map_to_list v)) in
  provider.Join
    (flat_map (λ k, map (λ x, QueryEscape k +:+ "=" +:+ QueryEscape x) (values v k))
       keys)
    "&".

(** [strings.Contains] for one character. *)
Fixpoint Contains (s : string) (c : ascii) : bool :=
  match s with
  | EmptyString => false
  | String c' rest => Ascii.eqb c' c || Contains rest c
  end.

(** The loop of [parseQuery] over the pieces between [&]: a piece with a
    semicolon or a bad escape sets the error and is left out, an empty piece
    is skipped, and a value is appended to the values of its key. *)
Fixpoint parseQuery (m : Values) (pieces : list string) : Values * bool :=
  match pieces with
  | [] => (m, false)
  | key :: query =>
      if Contains key ";" then ((parseQuery m query).1, true)
      else if bool_decide (key = EmptyString) then parseQuery m query
      else
        let '(key, value) := default (key, EmptyString) (net.Cut "=" key) in
        match net.QueryUnescape key with
        | None => ((parseQuery m query).1, true)
        | Some key =>
            match net.QueryUnescape value with
            | None => ((parseQuery m query).1, true)
            | Some value => parseQuery (<[key := values m key ++ [value]]> m) query
            end
        end
  end.

(** [url.ParseQuery]: the values, and whether there has been an error. *)
Definition ParseQuery (query : string) : Values * bool :=
  parseQuery ∅ (net.Split "&" query).

End url.

(** [tokenProvider], the local server that mocks the token exchange of
    RFC 8693. *)
Module tokenprovider.

(** [httptest.ResponseRecorder], as far as the handler writes to it. *)
Record ResponseRecorder : Type := {
  Header : gmap string string;
  Body : string
}.

(** [http.Request.FormValue]. *)
Definition FormValue (r : net.Request) (key : string) : string :=
  net.ValuesGet (net.Form r) key.

(** The two bodies that the handler writes. *)
Definition accessTokenBody (tok : url.Values) : string :=
  "{" +:+ testutil.dquote +:+ "access_token" +:+ testutil.dquote +:+ ": "
      +:+ testutil.dquote +:+ url.Encode tok +:+ testutil.dquote +:+ "}".

Definition errorBody (errmsg : string) : string :=
  "{" +:+ testutil.dquote +:+ "error" +:+ testutil.dquote +:+ ": "
      +:+ testutil.dquote +:+ errmsg +:+ testutil.dquote +:+ "}".

Definition ServeHTTP (r : net.Request) : ResponseRecorder :=
  let header : gmap string string := {[ "Content-Type" := "application/json" ]} in
  if bool_decide (net.URLPath (net.URL r) = "/token") then
    let grant_type := FormValue r "grant_type" in
    if bool_decide (grant_type ≠ "urn:ietf:params:oauth:grant-type:token-exchange") then
      let tok : url.Values :=
        <["audience" := ["any"]]> (<["scopes" := ["scopea scopeb scopec"]]> ∅) in
      {| Header := header; Body := accessTokenBody tok |}
    else
      let subject_token := FormValue r "subject_token" in
      if bool_decide (subject_token = EmptyString) then
        {| Header := header; Body := errorBody "no subject_token" |}
      else
        match url.ParseQuery subject_token with
        | (_, true) =>
            {| Header := header; Body := errorBody "could not parse subject_token" |}
        | (params, false) =>
            let scopes := FormValue r "scope" in
            let tok : url.Values :=
              if bool_decide (scopes ≠ EmptyString) then <["scopes" := [scopes]]> ∅
              else <["scopes" := url.values params "scopes"]> ∅ in
            let audience := FormValue r "audience" in
            let tok : url.Values :=
              if bool_decide (audience ≠ EmptyString) then <["audience" := [audience]]> tok
              else <["audience" := url.values params "audience"]> tok in
            {| Header := header; Body := accessTokenBody tok |}
        end
  else
    {| Header := header;
       Body := errorBody ("unexpected path: " +:+ testutil.Quote (net.URLPath (net.URL r))) |}.

End tokenprovider.

(** * The exchange functions with a state *)

(** The exchange functions of the mock that keep a counter or draw random
    bytes.  The counter of the closure is threaded through the calls, and
    the bytes that the random source yields are an argument. *)
Module exchanges.
Import provider testutil.

(** An [int32] wraps around. *)
Definition wrap32 (z : Z) : Z := (z + 2 ^ 31) `mod` 2 ^ 32 - 2 ^ 31.

(** [atomic.AddInt32]: the new value. *)
Definition AddInt32 (addr delta : Z) : Z := wrap32 (addr + delta).

(** The verb [%d] of [fmt.Sprintf]. *)
Definition FormatInt (z : Z) : string :=
  DecimalString.NilZero.string_of_int (Z.to_int z).

(** [hex.EncodeToString]. *)
Fixpoint EncodeToString (src : string) : string :=
  match src with
  | EmptyString => EmptyString
  | String c rest =>
      let n := N_of_ascii c in
      String (hexDigit (n / 16)) (String (hexDigit (n mod 16)) (EncodeToString rest))
  end.

(** [randomToken]: [n] bytes of [rand.Read] in hexadecimal; [None] is the
    panic when the random source fails. *)
Definition randomToken (n : nat) (entropy : string) : option string :=
  if decide (n ≤ String.length entropy)%nat
  then Some (EncodeToString (substring 0 n entropy))
  else None.

(** [RandomMockExchange]. *)
Definition RandomMockExchange (entropy : string) (code : string)
  : option (error + Token) :=
  accessToken ← randomToken 10 entropy;
  Some (inr {| AccessToken := accessToken; TokenType := ""; RefreshToken := "";
               Expiry := None |}).

(** [IncrementMockExchange]: the closure on its counter [i], which starts
    at 0. *)
Definition IncrementMockExchange (prefix : string)
  : Z → string → World → (error + Token) * Z :=
  fun i _ _ =>
    let i' := AddInt32 i 1 in
    (inr {| AccessToken := prefix +:+ FormatInt i'; TokenType := "";
            RefreshToken := ""; Expiry := None |}, i').

(** [RefreshableMockExchange]: the refresh token is drawn once; the closure
    is on its counter [i], which starts at 0 and is advanced by every call
    that gets a token from [fn]. *)
Definition RefreshableMockExchange (fn : MockExchangeFunc) (step : Z → error + Z)
    (entropy : string) : option (Z → string → World → (error + Token) * Z) :=
  refreshToken ← randomToken 40 entropy;
  Some (fun i candidate w =>
    match fn candidate w with
    | inl err => (inl err, i)
    | inr t =>
        let i' := AddInt32 i 1 in
        match step i' with
        | inl err => (inl err, i')
        | inr exp =>
            (inr {| AccessToken := AccessToken t; TokenType := TokenType t;
                    RefreshToken := refreshToken; Expiry := Some (now w + exp) |}, i')
        end
    end).

End exchanges.

(** ** Further scenarios *)

Module more_scenarios.
Import provider persistence backend testutil.

(** An exchange configuration whose exchange function always fails. *)
Definition errorConfig : mockExchangeConfig := {| fn := Some ErrorMockExchange |}.


(** A token that has expired. *)
Definition staleToken : provider.Token :=
  {| AccessToken := "abcd"; TokenType := "bearer"; RefreshToken := "efgh";
     Expiry := Some (5 * Second) |}.

(** A token whose refresh token no exchange has handed out. *)
Definition foreignToken : provider.Token :=
  {| AccessToken := ""; TokenType := "bearer"; RefreshToken := "wxyz";
     Expiry := None |}.

(** The request of [scenarios.request] as the framework hands it to the
    handler. *)
Definition rawRequest : framework.FieldData :=
  {| framework.Raw :=
       list_to_map [ ("client_id", framework.FString "foo");
                     ("client_secret", framework.FString "bar");
                     ("auth_url_params", framework.FKVPairs {[ "audience" := "x" ]});
                     ("provider", framework.FString "basic");
                     ("comment", framework.FInt 7) ];
     framework.Schema := handlers.configFields scenarios.sampleTuning |}.

(** The request of [scenarios.authCodeURLRequest] as the framework hands it
    to the handler. *)
Definition rawAuthCodeURLRequest : framework.FieldData :=
  {| framework.Raw :=
       list_to_map [ ("auth_url_params", framework.FKVPairs {[ "baz" := "quux" ]});
                     ("redirect_url", framework.FString "http://example.com/redirect");
                     ("scopes", framework.FStrings ["a"; "b"; "c"]);
                     ("state", framework.FString "s") ];
     framework.Schema := handlers.configAuthCodeURLFields |}.

(** A request whose client secret is a number, which the framework's
    validation does not let through. *)
Definition illTypedRequest : framework.FieldData :=
  {| framework.Raw :=
       list_to_map [ ("client_id", framework.FString "foo");
                     ("client_secret", framework.FInt 7);
                     ("provider", framework.FString "basic") ];
     framework.Schema := handlers.configFields scenarios.sampleTuning |}.




(** An exchange whose subject token has neither audience nor scopes. *)
Definition foreignExchangeRequest : net.Request :=
  {| net.URL := "http://localhost/token";
     net.Form := {[ "grant_type" := "urn:ietf:params:oauth:grant-type:token-exchange";
                    "subject_token" := "x=1" ]} |}.

(** Three calls of an exchange function. *)
Definition threeCalls : list (string * testutil.World) :=
  [ ("a", {| testutil.now := 0 |});
    ("b", {| testutil.now := 0 |});
    ("c", {| testutil.now := provider.Second |}) ].

(** Forty bytes of a random source. *)
Definition sampleEntropy : string := "0123456789abcdefghijklmnopqrstuvwxyzABCD".

(** A [step] that lets the [i]-th token live for [i] hours. *)
Definition sampleStep (i : Z) : provider.error + Z := inr (i * provider.Hour).

End more_scenarios.

(** * Further specification predicates *)

Section MorePredicates.
Import provider persistence backend testutil.

(** The state of the mock at a later reading of the clock. *)
Definition laterState (s : MockState) (w : World) : MockState :=
  {| owner := owner s; world := w; calls := calls s |}.

(** A factor that the sanity checks let pass: not a number, or at least 1. *)
Definition factorAccepted (x : float) : Prop :=
  PrimFloat.is_nan x = true ∨ PrimFloat.leb 1 x = true.

Variable ConfigVersionLatest : Z.
Variable DefaultConfigTuningEntry : ConfigTuningEntry.

(** The ConfigEntry literal of [configUpdateOperation], for the client ID and
    the provider name of the request, and the options and the provider that
    the registry has returned. *)
Definition requestedConfig (data : ConfigFieldData) (clientID providerName : string)
    (providerOptions : gmap string string) (p : provider.Provider) : ConfigEntry :=
  {| Version := ConfigVersionLatest;
     ClientID := clientID;
     ClientSecret := Get "" (client_secret data);
     AuthURLParams := Get ∅ (auth_url_params data);
     ProviderName := providerName;
     ProviderVersion := provider.Version p;
     ProviderOptions := providerOptions;
     Tuning := backend.requestedTuning DefaultConfigTuningEntry data |}.

(** Every value of the request has the Go type of its field's schema. *)
Definition WellTyped (data : framework.FieldData) : Prop :=
  ∀ k v schema, framework.Raw data !! k = Some v →
    framework.Schema data !! k = Some schema →
    framework.hasType (framework.Type_ schema) v = true.

(** A number of seconds that a [time.Duration] can hold. *)
Definition fitsDuration (seconds : Z) : Prop :=
  - 2 ^ 63 ≤ seconds * provider.Second < 2 ^ 63.

(** The defaults in seconds of a tuning entry are durations. *)
Definition defaultsFit (d : ConfigTuningEntry) : Prop :=
  fitsDuration (ProviderTimeoutSeconds d)
  ∧ fitsDuration (RefreshCheckIntervalSeconds d)
  ∧ fitsDuration (ReapCheckIntervalSeconds d)
  ∧ fitsDuration (ReapNonRefreshableSeconds d)
  ∧ fitsDuration (ReapRevokedSeconds d)
  ∧ fitsDuration (ReapTransientErrorSeconds d).

(** The values of a token of the mock token provider. *)
Definition issuedToken (audience scopes : list string) : url.Values :=
  <["audience" := audience]> (<["scopes" := scopes]> ∅).



Fixpoint allChars (p : ascii → bool) (s : string) : bool :=
  match s with
  | EmptyString => true
  | String c rest => p c && allChars p rest
  end.

(** The results of a closure with a counter over a sequence of calls. *)
Fixpoint callsFrom {R : Type} (f : Z → string → testutil.World → R * Z) (i : Z)
    (calls : list (string * testutil.World)) : list R :=
  match calls with
  | [] => []
  | (code, w) :: rest => (f i code w).1 :: callsFrom f (f i code w).2 rest
  end.

(** The digits of [hex.EncodeToString]. *)
Definition lowerHex (c : ascii) : bool :=
  let n := N_of_ascii c in
  ((48 <=? n) && (n <=? 57) || (97 <=? n) && (n <=? 102))%N.

(** The token of the [i]-th call of [IncrementMockExchange]. *)
Definition numberedToken (prefix : string) (i : Z) : provider.Token :=
  {| provider.AccessToken := prefix +:+ exchanges.FormatInt i;
     provider.TokenType := ""; provider.RefreshToken := "";
     provider.Expiry := None |}.

End MorePredicates.

(** * Properties *)

Import scenarios.

(** ** The mock provider factory *)

Section MockFactory.
Import provider testutil.

Lemma acceptedVersion_test m v :
  bool_decide (v = -1) || bool_decide (v = vsn m) = true ↔ acceptedVersion m v.
Proof.
  unfold acceptedVersion.
  rewrite orb_true_iff, !bool_decide_eq_true. tauto.
Qed.

(** After a first loop without error, every visited option was present with
    the expected value, and exactly the visited keys are gone. *)
Lemma checkExpected_None es : ∀ (options options' : gmap string string),
  NoDup es.*1 →
  checkExpected es options = (options', None) →
  (∀ k ev, (k, ev) ∈ es → options !! k = Some ev)
  ∧ (∀ k, options' !! k = if decide (k ∈ es.*1) then None else options !! k).
Proof.
  induction es as [|[k ev] es IH]; intros options options' Hnd Hrun; simpl in *.
  - injection Hrun as <-. split.
    + intros k ev Hin. inversion Hin.
    + done.
  - apply NoDup_cons in Hnd as [Hk Hnd].
    destruct (options !! k) as [av|] eqn:Hav; [|discriminate].
    case_bool_decide as Heq; [subst av|discriminate].
    destruct (IH _ _ Hnd Hrun) as [Hall Hrest]. split.
    + intros k' ev' Hin. apply elem_of_cons in Hin as [[= -> ->]|Hin]; [done|].
      assert (k ≠ k') as Hne.
      { intros ->. apply Hk. apply list_elem_of_fmap. by exists (k', ev'). }
      rewrite <- (Hall k' ev' Hin). symmetry. by apply lookup_delete_ne.
    + intros k'. rewrite Hrest.
      destruct (decide (k' = k)) as [->|Hne].
      * rewrite lookup_delete_eq.
        destruct (decide (k ∈ es.*1)); [done|].
        by rewrite decide_True by apply list_elem_of_here.
      * rewrite lookup_delete_ne by done.
        destruct (decide (k' ∈ es.*1)) as [Hin|Hnin].
        -- by rewrite decide_True by (by apply list_elem_of_further).
        -- rewrite decide_False; [done|].
           intros Hin. apply elem_of_cons in Hin as [?|?]; done.
Qed.

(** A first loop that stops with an error names a visited key that is absent
    or has another value; what it leaves of [options] is a part of it. *)
Lemma checkExpected_Some es : ∀ (options options' : gmap string string) err,
  NoDup es.*1 →
  checkExpected es options = (options', Some err) →
  options' ⊆ options
  ∧ ∃ k ev msg, (k, ev) ∈ es ∧ err = OptionError k msg
      ∧ ((options !! k = None ∧ msg = "not found")
         ∨ (∃ av, options !! k = Some av ∧ av ≠ ev
              ∧ msg = "expected " +:+ Quote ev +:+ ", got " +:+ Quote av)).
Proof.
  induction es as [|[k ev] es IH]; intros options options' err Hnd Hrun; simpl in *.
  - discriminate.
  - apply NoDup_cons in Hnd as [Hk Hnd].
    destruct (options !! k) as [av|] eqn:Hav.
    + case_bool_decide as Heq.
      * subst av. destruct (IH _ _ _ Hnd Hrun) as [Hsub (k' & ev' & msg & Hin & -> & Hbad)].
        split; [etrans; [exact Hsub|apply delete_subseteq]|].
        assert (k ≠ k') as Hne.
        { intros ->. apply Hk. apply list_elem_of_fmap. by exists (k', ev'). }
        exists k', ev', msg. rewrite lookup_delete_ne in Hbad by done.
        split; [by apply list_elem_of_further|done].
      * injection Hrun as <- <-. split; [done|].
        exists k, ev, ("expected " +:+ Quote ev +:+ ", got " +:+ Quote av).
        split; [apply list_elem_of_here|]. split; [done|]. right. by exists av.
    + injection Hrun as <- <-. split; [done|].
      exists k, ev, "not found". split; [apply list_elem_of_here|]. by split; [|left].
Qed.

(** What [factory] does on a version it accepts. *)
Lemma factory_accepted ord m v (options : gmap string string) :
  ValidOrder ord → acceptedVersion m v →
  (options = expectedOpts m
   ∧ factory ord m v options = (∅, inr (mockProvider m)))
  ∨ (options ≠ expectedOpts m
     ∧ ∃ options' k msg, factory ord m v options = (options', inl (OptionError k msg))
         ∧ options' ⊆ options ∧ BadOption (expectedOpts m) options k msg).
Proof.
  intros Hord Hv. unfold factory.
  rewrite (proj2 (acceptedVersion_test m v) Hv).
  assert (NoDup (ord (expectedOpts m)).*1) as Hnd.
  { rewrite (Hord (expectedOpts m)). apply NoDup_fst_map_to_list. }
  assert (∀ k ev, (k, ev) ∈ ord (expectedOpts m) ↔ expectedOpts m !! k = Some ev) as Hmem.
  { intros k ev. rewrite (Hord (expectedOpts m)). apply elem_of_map_to_list. }
  destruct (checkExpected (ord (expectedOpts m)) options) as [options' [err|]] eqn:Hrun.
  - right. apply checkExpected_Some in Hrun as [Hsub (k & ev & msg & Hin & -> & Hbad)]; [|done].
    apply Hmem in Hin. split.
    + intros ->. destruct Hbad as [[? _]|(av & ? & ? & _)]; congruence.
    + exists options', k, msg. split; [done|]. split; [done|].
      destruct Hbad as [[? ->]|(av & ? & ? & ->)].
      * left. by exists ev.
      * right; left. by exists ev, av.
  - apply checkExpected_None in Hrun as [Hall Hrest]; [|done].
    assert (∀ k, options' !! k = match expectedOpts m !! k with
                                   | Some _ => None | None => options !! k end) as Hrest'.
    { intros k. rewrite Hrest. case_decide as Hin.
      - apply list_elem_of_fmap in Hin as ([k' ev] & -> & Hin). simpl.
        apply Hmem in Hin. by rewrite Hin.
      - destruct (expectedOpts m !! k) as [ev|] eqn:HE; [|done].
        exfalso. apply Hin. apply list_elem_of_fmap. exists (k, ev).
        split; [done|]. by apply Hmem. }
    destruct (ord options') as [|[k av] rest] eqn:Hleft.
    + left. assert (options' = ∅) as ->.
      { apply map_to_list_empty_iff. apply Permutation_nil_r.
        rewrite <- (Hord options'). by rewrite Hleft. }
      split; [|done]. apply map_eq. intros k.
      specialize (Hrest' k). rewrite lookup_empty in Hrest'.
      destruct (expectedOpts m !! k) as [ev|] eqn:HE; [|done].
      apply Hall. by apply Hmem.
    + right. assert (options' !! k = Some av) as Hk.
      { apply elem_of_map_to_list. rewrite <- (Hord options'), Hleft.
        apply list_elem_of_here. }
      rewrite Hrest' in Hk.
      destruct (expectedOpts m !! k) as [ev|] eqn:HE; [done|]. split.
      * intros ->. congruence.
      * exists options', k, "unexpected". split; [done|]. split.
        -- apply map_subseteq_spec. intros k' x Hx. rewrite Hrest' in Hx.
           by destruct (expectedOpts m !! k').
        -- right; right. by rewrite Hk.
Qed.

(** What [factory] does on any other version. *)
Lemma factory_rejected ord m v (options : gmap string string) :
  v ≠ -1 → v ≠ vsn m →
  factory ord m v options = (options, inl ErrNoProviderWithVersion).
Proof.
  intros H1 H2. unfold factory.
  by rewrite !bool_decide_eq_false_2.
Qed.

(** Each way of failing the expected options makes the maps differ. *)
Lemma BadOption_ne (E options : gmap string string) k msg :
  BadOption E options k msg → options ≠ E.
Proof.
  intros [(ev & ? & ? & _)|[(ev & av & ? & ? & ? & _)|(? & [av ?] & _)]] ->; congruence.
Qed.

End MockFactory.

Section MockFactoryClaims.
Import provider testutil.

(** C4 (as amended).  For every requested version [v]: when [v] is the
    sentinel latest version [-1] or the factory's own version, the factory
    returns a provider instance if the options are the expected ones, and an
    option error (never the no-provider-with-version error) if they are not;
    for every other [v] it returns the no-provider-with-version error. *)
Theorem factory_version_gate ord m v (options : gmap string string) :
  ValidOrder ord →
  (acceptedVersion m v → options = expectedOpts m →
     (factory ord m v options).2 = inr (mockProvider m))
  ∧ (acceptedVersion m v → options ≠ expectedOpts m →
     ∃ k msg, (factory ord m v options).2 = inl (OptionError k msg))
  ∧ (¬ acceptedVersion m v →
     factory ord m v options = (options, inl ErrNoProviderWithVersion)).
Proof.
  intros Hord. split; [|split].
  - intros Hv Heq.
    destruct (factory_accepted ord m v options Hord Hv) as [[_ ->]|[Hne _]]; done.
  - intros Hv Hne.
    destruct (factory_accepted ord m v options Hord Hv)
      as [[Heq _]|[_ (o' & k & msg & -> & _)]]; [done|]. by exists k, msg.
  - intros Hv. apply factory_rejected; intros ->; apply Hv; [by left|by right].
Qed.

(** C5 (as amended).  On a version it accepts, the factory validates its
    options map: whenever some key is bad (a declared option that is absent or
    has another value than the expected one, or a key that is not declared) it
    returns an [OptionError] that names a bad key; it returns a provider
    exactly when the options are the declared ones.  It is not pure: what it
    leaves of the caller's map is a part of it, and the empty map when it
    returns a provider. *)
Theorem factory_validates_options ord m v (options : gmap string string) :
  ValidOrder ord → acceptedVersion m v →
  ((∃ k msg, BadOption (expectedOpts m) options k msg) →
     ∃ k msg, (factory ord m v options).2 = inl (OptionError k msg)
              ∧ BadOption (expectedOpts m) options k msg)
  ∧ (∀ p, (factory ord m v options).2 = inr p
          ↔ options = expectedOpts m ∧ p = mockProvider m)
  ∧ (factory ord m v options).1 ⊆ options
  ∧ (options = expectedOpts m → (factory ord m v options).1 = ∅).
Proof.
  intros Hord Hv.
  destruct (factory_accepted ord m v options Hord Hv)
    as [[Heq ->]|[Hne (o' & k & msg & -> & Hsub & Hbad)]]; simpl.
  - split; [|split; [|split]].
    + intros (k & msg & Hbad). by apply BadOption_ne in Hbad.
    + intros p. split; [by intros [= <-]|by intros [_ ->]].
    + apply map_empty_subseteq.
    + done.
  - split; [|split; [|split]].
    + intros _. by exists k, msg.
    + intros p. split; [done|by intros [? _]].
    + done.
    + done.
Qed.

End MockFactoryClaims.

Lemma ValidOrder_map_to_list : testutil.ValidOrder map_to_list.
Proof. intros m. reflexivity. Qed.

Lemma factory_version_gate_witness :
  (testutil.factory map_to_list mockExpectingA 1 {[ "a" := "b" ]}).2
    = inr (testutil.mockProvider mockExpectingA)
  ∧ testutil.factory map_to_list mockExpectingA 7 {[ "a" := "b" ]}
    = ({[ "a" := "b" ]}, inl provider.ErrNoProviderWithVersion).
Proof.
  destruct (factory_version_gate map_to_list mockExpectingA 1 {[ "a" := "b" ]}
              ValidOrder_map_to_list) as (Hok & _ & _).
  destruct (factory_version_gate map_to_list mockExpectingA 7 {[ "a" := "b" ]}
              ValidOrder_map_to_list) as (_ & _ & Hno).
  split.
  - apply Hok; [by right|reflexivity].
  - apply Hno. intros [?|?]; discriminate.
Defined.

(** The latest version is requested, and yet no provider is returned: the
    option that the mock expects is missing. *)
Lemma factory_version_gate_counterexample :
  acceptedVersion mockExpectingA (-1)
  ∧ testutil.factory map_to_list mockExpectingA (-1) ∅
    = (∅, inl (provider.OptionError "a" "not found")).
Proof. split; [by left|]. vm_compute. reflexivity. Qed.

Lemma factory_validates_options_witness :
  (testutil.factory map_to_list mockExpectingA (-1) {[ "a" := "b" ]}).1 = ∅
  ∧ ∃ k msg,
      (testutil.factory map_to_list mockExpectingA (-1) {[ "a" := "c" ]}).2
        = inl (provider.OptionError k msg)
      ∧ BadOption (testutil.expectedOpts mockExpectingA) {[ "a" := "c" ]} k msg.
Proof.
  split.
  - apply (factory_validates_options map_to_list mockExpectingA (-1) {[ "a" := "b" ]}
             ValidOrder_map_to_list); [by left|reflexivity].
  - apply (factory_validates_options map_to_list mockExpectingA (-1) {[ "a" := "c" ]}
             ValidOrder_map_to_list); [by left|].
    exists "a", ("expected " +:+ testutil.Quote "b" +:+ ", got " +:+ testutil.Quote "c").
    right; left. exists "b", "c".
    split; [reflexivity|]. split; [reflexivity|]. split; [discriminate|reflexivity].
Defined.

(** The factory is handed the options [{a: b}], returns a provider, and has
    emptied the caller's map; on a version it does not accept it answers with
    the version error although an option is bad. *)
Lemma factory_validates_options_counterexample :
  testutil.factory map_to_list mockExpectingA (-1) {[ "a" := "b" ]}
    = (∅, inr (testutil.mockProvider mockExpectingA))
  ∧ ({[ "a" := "b" ]} : gmap string string) ≠ ∅
  ∧ testutil.factory map_to_list mockExpectingA 7 ∅
    = (∅, inl provider.ErrNoProviderWithVersion).
Proof.
  split; [vm_compute; reflexivity|]. split; [|vm_compute; reflexivity].
  intros H. by apply (f_equal (λ m : gmap string string, m !! "a")) in H.
Qed.

(** ** The mock exchange configuration *)

Section MockRefresh.
Import provider testutil.

(** C10.  The mock's [Refresh] is the identity on tokens that need no
    refreshing: when the refresh token is empty, or unknown to the provider,
    or the token is still valid, it returns the input token and leaves the
    state as it was; in particular no call to the exchange function is
    logged. *)
Theorem Refresh_identity (c : mockExchangeConfig) (t : Token) (s : MockState) :
  RefreshToken t = ""
  ∨ getRefreshTokenCode (owner s) (RefreshToken t) = None
  ∨ Valid (now (world s)) t = true →
  Refresh c t s = (inr t, s) ∧ calls (Refresh c t s).2 = calls s.
Proof.
  intros Hcases.
  assert (Refresh c t s = (inr t, s)) as Heq.
  { unfold Refresh. case_bool_decide as Hempty; [done|].
    destruct (fn c) as [f|]; [|done].
    destruct (getRefreshTokenCode (owner s) (RefreshToken t)) as [code|] eqn:Hcode; [|done].
    destruct (Valid (now (world s)) t) eqn:Hvalid; [done|].
    destruct Hcases as [?|[?|?]]; done. }
  by rewrite Heq.
Qed.

(** The other side: a token with a known refresh token that is no longer
    valid makes [Refresh] call the exchange function with the recorded code. *)
Lemma Refresh_calls (c : mockExchangeConfig) f (t : Token) (s : MockState) code :
  fn c = Some f → RefreshToken t ≠ "" →
  getRefreshTokenCode (owner s) (RefreshToken t) = Some code →
  Valid (now (world s)) t = false →
  Refresh c t s = callFn f code s ∧ calls (Refresh c t s).2 = (calls s ++ [code])%list.
Proof.
  intros Hfn Hne Hcode Hvalid.
  assert (Refresh c t s = callFn f code s) as ->; [|done].
  unfold Refresh. rewrite bool_decide_eq_false_2 by done.
  by rewrite Hfn, Hcode, Hvalid.
Qed.

End MockRefresh.

Lemma Refresh_identity_witness :
  testutil.Refresh mockConfig staticToken mockState0 = (inr staticToken, mockState0)
  ∧ testutil.calls (testutil.Refresh mockConfig staticToken mockState0).2 = [].
Proof.
  apply (Refresh_identity mockConfig staticToken mockState0).
  right; left. reflexivity.
Defined.

(** After an exchange the refresh token is known; once the token is no longer
    valid, [Refresh] goes back to the exchange function. *)
Example Refresh_after_Exchange :
  let s1 := (testutil.Exchange mockConfig "123456" mockState0).2 in
  let s2 := {| testutil.owner := testutil.owner s1;
               testutil.world := {| testutil.now := 200 * provider.Second |};
               testutil.calls := testutil.calls s1 |} in
  testutil.calls (testutil.Refresh mockConfig staticToken s1).2 = ["123456"]
  ∧ testutil.calls (testutil.Refresh mockConfig staticToken s2).2 = ["123456"; "123456"].
Proof. vm_compute. split; reflexivity. Qed.

(** ** The [config] path *)

Section ConfigPath.
Import provider persistence backend.

Variable ConfigVersionLatest : Z.
Variable DefaultConfigTuningEntry : ConfigTuningEntry.

Local Abbreviation configUpdateOperation :=
  (backend.configUpdateOperation ConfigVersionLatest DefaultConfigTuningEntry).
Local Abbreviation requestedTuning := (backend.requestedTuning DefaultConfigTuningEntry).

Lemma Seconds_90_days : Seconds (90 * 24 * Hour) = 90 * 24 * 60 * 60.
Proof. reflexivity. Qed.

Lemma Seconds_180_days : Seconds (180 * 24 * Hour) = 180 * 24 * 60 * 60.
Proof. reflexivity. Qed.

Lemma checkTuning_violated t :
  violatesBound t → ∃ text, checkTuning t = Some (ErrorResponse text []).
Proof.
  unfold violatesBound, checkTuning. rewrite Seconds_90_days, Seconds_180_days.
  intros Hv.
  destruct (PrimFloat.ltb (ProviderTimeoutExpiryLeewayFactor t) 1); [by eexists|].
  case_bool_decide; [by eexists|].
  destruct (PrimFloat.ltb (RefreshExpiryDeltaFactor t) 1); [by eexists|].
  case_bool_decide; [by eexists|].
  case_bool_decide; [by eexists|].
  exfalso. destruct Hv as [?|[?|[?|[?|?]]]]; (discriminate || lia).
Qed.

Lemma checkTuning_passed t : checkTuning t = None ↔ allBoundsHold t.
Proof.
  unfold allBoundsHold, checkTuning. rewrite Seconds_90_days, Seconds_180_days.
  destruct (PrimFloat.ltb (ProviderTimeoutExpiryLeewayFactor t) 1);
    [split; [discriminate|by intros [? _]]|].
  case_bool_decide; [split; [discriminate|intros (_ & _ & ? & _); lia]|].
  destruct (PrimFloat.ltb (RefreshExpiryDeltaFactor t) 1);
    [split; [discriminate|by intros (_ & ? & _)]|].
  case_bool_decide; [split; [discriminate|intros (_ & _ & _ & ? & _); lia]|].
  case_bool_decide; [split; [discriminate|intros (_ & _ & _ & _ & ?); lia]|].
  split; [|done]. intros _. repeat split; (done || lia).
Qed.

Lemma allBoundsHold_not_violated t : allBoundsHold t ↔ ¬ violatesBound t.
Proof.
  unfold allBoundsHold, violatesBound. split.
  - intros (H1 & H2 & H3 & H4 & H5) [?|[?|[?|[?|?]]]]; (congruence || lia).
  - intros Hn. repeat split.
    + destruct (PrimFloat.ltb _ 1) eqn:E; [|done]. exfalso. apply Hn. by left.
    + destruct (PrimFloat.ltb (RefreshExpiryDeltaFactor t) 1) eqn:E; [|done].
      exfalso. apply Hn. right. by left.
    + destruct (decide (RefreshCheckIntervalSeconds t ≤ 90 * 24 * 60 * 60)); [done|].
      exfalso. apply Hn. right; right; left. lia.
    + destruct (decide (ReapCheckIntervalSeconds t ≤ 180 * 24 * 60 * 60)); [done|].
      exfalso. apply Hn. right; right; right; left. lia.
    + destruct (decide (0 ≤ ReapTransientErrorAttempts t)); [done|].
      exfalso. apply Hn. right; right; right; right. lia.
Qed.

Lemma configUpdateOperation_outcome b data :
  UpdateOutcome ConfigVersionLatest DefaultConfigTuningEntry b data
    (configUpdateOperation b data).1 (configUpdateOperation b data).2.
Proof.
  unfold backend.configUpdateOperation.
  destruct (client_id data) as [clientID|] eqn:Hid; [|by constructor].
  destruct (provider_name data) as [name|] eqn:Hname; [|by econstructor].
  destruct (New _ name _) as [opts [err|p]] eqn:Hnew.
  - destruct (errors_Is err ErrNoSuchProvider) eqn:His; [by econstructor|].
    destruct (MarkedUser err) eqn:Hmark; by econstructor.
  - cbn [Tuning].
    destruct (checkTuning (requestedTuning data)) as [resp|] eqn:Hcheck.
    + destruct (decide (violatesBound (requestedTuning data))) as [Hv|Hv].
      * destruct (checkTuning_violated _ Hv) as [text Htext].
        rewrite Hcheck in Htext. injection Htext as ->. by econstructor.
      * apply allBoundsHold_not_violated, checkTuning_passed in Hv. congruence.
    + apply checkTuning_passed in Hcheck.
      unfold WriteConfig. destruct (fault (storage b)) as [err|] eqn:Hfault.
      * by eapply UpdateWriteError.
      * unfold reset, withStorage. cbn [fst snd providerRegistry storage cached events].
        by eapply UpdateWritten.
Qed.

(** C1 (as amended).  Whenever a tuning bound is violated (a factor below
    1.0, a refresh check interval above 90 days, a reap check interval above
    180 days, negative reap attempts), [configUpdateOperation] leaves the
    backend, and so the stored ConfigEntry, as it was, and answers with an
    error response, unless building the provider has failed with an error
    that is neither no-such-provider nor marked as a user error: then that
    error is returned as it is.  The store or the event log changes only when
    all five bounds hold. *)
Theorem configUpdateOperation_tuning_bounds b data b' res :
  configUpdateOperation b data = (b', res) →
  (violatesBound (requestedTuning data) →
     b' = b
     ∧ ((∃ resp, res = (Some resp, None) ∧ IsError resp = true)
        ∨ (∃ name opts err,
             provider_name data = Some name
             ∧ New (providerRegistry b) name (Get ∅ (provider_options data))
               = (opts, inl err)
             ∧ errors_Is err ErrNoSuchProvider = false
             ∧ MarkedUser err = false
             ∧ res = (None, Some err))))
  ∧ (storage b' ≠ storage b ∨ events b' ≠ events b →
     allBoundsHold (requestedTuning data)).
Proof.
  intros Hrun. pose proof (configUpdateOperation_outcome b data) as Hout.
  rewrite Hrun in Hout. cbn [fst snd] in Hout.
  inversion Hout; subst; (split; [intros Hv|intros [Hne|Hne]; try done]).
  - split; [done|]. left. by eexists.
  - split; [done|]. left. by eexists.
  - split; [done|]. left. by eexists.
  - split; [done|]. left. by eexists.
  - split; [done|]. right. by exists name, opts, err.
  - split; [done|]. left. by eexists.
  - by apply allBoundsHold_not_violated in Hv.
  - by apply allBoundsHold_not_violated in Hv.
Qed.

(** C2.  After every successful [configUpdateOperation] the stored
    ConfigEntry has the latest config version and the version of the provider
    that the registry has just built from the requested name and options; the
    events added are the write and then one reset, which has emptied the
    cache.  In every other case (a missing field, a provider error, a failed
    validation, a failed write) the backend is as before: no reset. *)
Theorem configUpdateOperation_success b data b' res :
  configUpdateOperation b data = (b', res) →
  (res = (None, None) →
     ∃ name opts p c,
       provider_name data = Some name
       ∧ New (providerRegistry b) name (Get ∅ (provider_options data)) = (opts, inr p)
       ∧ ReadConfig (storage b') = inr (Some c)
       ∧ Version c = ConfigVersionLatest
       ∧ ProviderVersion c = provider.Version p
       ∧ events b' = events b ++ [EvWriteConfig c; EvReset]
       ∧ cached b' = None)
  ∧ (res ≠ (None, None) → b' = b).
Proof.
  intros Hrun. pose proof (configUpdateOperation_outcome b data) as Hout.
  rewrite Hrun in Hout. cbn [fst snd] in Hout.
  inversion Hout; subst; (split; [intros [=]|try done]).
  eexists name, opts, p, _. split; [done|]. split; [done|].
  unfold ReadConfig. cbn [storage fault kv events cached].
  rewrite lookup_insert_eq. split; [done|]. split; [done|]. split; [done|].
  split; [|done]. by rewrite <- app_assoc.
Qed.

(** C3.  [configDeleteOperation] leaves every stored credential entry as it
    was.  When the store accepts the delete, only the key [config] is removed,
    and the delete is followed by one reset; when the store fails, nothing
    has happened. *)
Theorem configDeleteOperation_frame b :
  (∀ name, ReadCredential (storage (configDeleteOperation b).1) name
           = ReadCredential (storage b) name)
  ∧ (fault (storage b) = None →
     (configDeleteOperation b).2 = (None, None)
     ∧ kv (storage (configDeleteOperation b).1) = delete configKey (kv (storage b))
     ∧ ReadConfig (storage (configDeleteOperation b).1) = inr None
     ∧ events (configDeleteOperation b).1 = events b ++ [EvDeleteConfig; EvReset]
     ∧ cached (configDeleteOperation b).1 = None)
  ∧ (∀ err, fault (storage b) = Some err →
     configDeleteOperation b = (b, (None, Some err))).
Proof.
  unfold configDeleteOperation, DeleteConfig, ReadCredential, ReadConfig.
  destruct (fault (storage b)) as [err|] eqn:Hfault; cbn.
  - split; [done|]. split; [done|]. by intros ? [= ->].
  - split.
    + intros name. by apply lookup_delete_ne.
    + split; [|done]. intros _. rewrite lookup_delete_eq.
      repeat split. by rewrite <- app_assoc.
Qed.

End ConfigPath.

Section ConfigPathInputs.
Import provider persistence backend.

Variable ConfigVersionLatest : Z.
Variable DefaultConfigTuningEntry : ConfigTuningEntry.

Local Abbreviation configUpdateOperation :=
  (backend.configUpdateOperation ConfigVersionLatest DefaultConfigTuningEntry).

(** C8 (as amended).  [configUpdateOperation] without a client ID, or without
    a provider, answers with an error response and a nil error.
    [configAuthCodeURLUpdateOperation] without a state answers with an error
    response and a nil error whenever the cache can be obtained (not
    configured, or missing state); when obtaining the cache fails, that error
    is returned instead.  With no ConfigEntry in the store (and none cached)
    it answers with the error response "not configured". *)
Theorem missing_input_error_response b :
  (∀ data, client_id data = None →
     configUpdateOperation b data
     = (b, (Some (ErrorResponse "missing client ID" []), None)))
  ∧ (∀ data, provider_name data = None →
     configUpdateOperation b data
     = (b, (Some (ErrorResponse (match client_id data with
                                 | None => "missing client ID"
                                 | Some _ => "missing provider"
                                 end) []), None)))
  ∧ (∀ data, acu_state data = None →
     configAuthCodeURLUpdateOperation b data
     = ((getCache b).1,
        match (getCache b).2 with
        | inl err => (None, Some err)
        | inr None => (Some (ErrorResponse "not configured" []), None)
        | inr (Some _) => (Some (ErrorResponse "missing state" []), None)
        end))
  ∧ (∀ data, cached b = None → ReadConfig (storage b) = inr None →
     configAuthCodeURLUpdateOperation b data
     = (b, (Some (ErrorResponse "not configured" []), None))).
Proof.
  split; [|split; [|split]].
  - intros data Hid. unfold backend.configUpdateOperation. by rewrite Hid.
  - intros data Hname. unfold backend.configUpdateOperation. rewrite Hname.
    by destruct (client_id data).
  - intros data Hstate. unfold configAuthCodeURLUpdateOperation. rewrite Hstate.
    by destruct (getCache b) as [b' [err|[c|]]].
  - intros data Hcache Hread. unfold configAuthCodeURLUpdateOperation, getCache.
    by rewrite Hcache, Hread.
Qed.

End ConfigPathInputs.

(** ** Reading the configuration *)

Section ConfigRead.
Import provider persistence backend.

Lemma ReadConfig_withClientSecret secret b :
  ReadConfig (storage (backendWithClientSecret secret b))
  = match ReadConfig (storage b) with
    | inl err => inl err
    | inr c => inr (withClientSecret secret <$> c)
    end.
Proof.
  unfold ReadConfig. cbn [backendWithClientSecret storage fault kv].
  destruct (fault (storage b)); [done|].
  rewrite lookup_alter_eq. by destruct (kv (storage b) !! configKey) as [[c|c]|].
Qed.

Lemma getCache_withClientSecret secret b :
  getCache (backendWithClientSecret secret b)
  = (backendWithClientSecret secret (getCache b).1,
     match (getCache b).2 with
     | inl err => inl err
     | inr c => inr (cacheWithClientSecret secret <$> c)
     end).
Proof.
  unfold getCache. rewrite ReadConfig_withClientSecret.
  cbn [backendWithClientSecret cached providerRegistry].
  destruct (cached b) as [c|]; [done|]. cbn [fmap option_fmap option_map].
  destruct (ReadConfig (storage b)) as [err|[cfg|]]; [done| |done].
  cbn [fmap option_fmap option_map withClientSecret ProviderName ProviderVersion
       ProviderOptions].
  by destruct (NewAt _ _ _ _) as [opts [err|p]].
Qed.

Lemma configReadData_dom cfg : dom (configReadData cfg) = configReadKeys.
Proof. unfold configReadData. by rewrite dom_list_to_map_L. Qed.

Lemma configReadData_no_client_secret cfg :
  configReadData cfg !! "client_secret" = None.
Proof.
  apply not_elem_of_dom. rewrite configReadData_dom.
  unfold configReadKeys. by vm_compute.
Qed.

Lemma configReadData_withClientSecret secret cfg :
  configReadData (withClientSecret secret cfg) = configReadData cfg.
Proof. reflexivity. Qed.

(** C9.  [configReadOperation] does not disclose the client secret: the
    answer is the same whatever client secret the stored ConfigEntry holds,
    and the data of the answer has the client ID, the provider fields and the
    tuning fields as its keys, and no key [client_secret]; the data built from
    a ConfigEntry does not depend on its client secret. *)
Theorem configReadOperation_hides_client_secret (b : backend.backend) :
  (∀ secret, (configReadOperation (backendWithClientSecret secret b)).2
             = (configReadOperation b).2)
  ∧ (∀ resp err, (configReadOperation b).2 = (Some resp, err) →
       ∃ data, resp = DataResponse data
               ∧ dom data = configReadKeys
               ∧ data !! "client_secret" = None)
  ∧ (∀ cfg secret, configReadData (withClientSecret secret cfg) = configReadData cfg).
Proof.
  split; [|split; [|reflexivity]].
  - intros secret. unfold configReadOperation.
    rewrite getCache_withClientSecret.
    by destruct (getCache b) as [b' [err|[c|]]].
  - intros resp err. unfold configReadOperation.
    destruct (getCache b) as [b' [e|[c|]]]; cbn [snd]; intros Heq;
      [discriminate Heq| |discriminate Heq].
    exists (configReadData (Config c)). split; [congruence|].
    split; [apply configReadData_dom|apply configReadData_no_client_secret].
Qed.

End ConfigRead.

(** ** The authorization-code URL *)

Section AuthCodeURL.
Import provider persistence backend basic.

Lemma SetAuthURLParams_list (l : list (string * string)) : ∀ q : gmap string string,
  NoDup l.*1 → SetAuthURLParams l q = list_to_map l ∪ q.
Proof.
  unfold SetAuthURLParams.
  induction l as [|[k v] l IH]; intros q Hnd; cbn [fold_left list_to_map foldr fst snd].
  - by rewrite (left_id_L ∅ (∪)).
  - cbn in Hnd. apply NoDup_cons in Hnd as [Hk Hnd].
    rewrite IH by done. cbn [uncurry].
    rewrite <- insert_union_l. symmetry. apply insert_union_r.
    by apply not_elem_of_list_to_map_1.
Qed.

(** Setting the URL parameters of a map merges the map into the query. *)
Lemma SetAuthURLParams_map (m q : gmap string string) :
  SetAuthURLParams (map_to_list m) q = m ∪ q.
Proof.
  rewrite SetAuthURLParams_list by apply NoDup_fst_map_to_list.
  by rewrite list_to_map_to_list.
Qed.

(** [TestBasicAuthCodeURLConfig]: the provider is built by the registry from
    [basicTestFactory], and the assertions of the test hold of the URL. *)
Example TestBasicAuthCodeURLConfig :
  ∃ basicTest,
    (New {[ "basic" := basicTestFactory ]} "basic" ∅).2 = inr basicTest
    ∧ let conf := WithScopes ["a"; "b"; "c"]
                    (WithRedirectURL "http://example.com/redirect"
                       (NewAuthCodeURLConfigBuilder basicTest "foo")) in
      let u := AuthCodeURL conf "state" [("baz", "quux")] in
      Base u = "http://localhost/authorize"
      ∧ Query u !! "response_type" = Some "code"
      ∧ Query u !! "client_id" = Some "foo"
      ∧ Query u !! "redirect_uri" = Some "http://example.com/redirect"
      ∧ Query u !! "state" = Some "state"
      ∧ Query u !! "scope" = Some "a b c"
      ∧ Query u !! "baz" = Some "quux".
Proof. eexists. split; [vm_compute; reflexivity|]. vm_compute. by repeat split. Qed.

(** C6.  For a basic provider configured with the client ID [foo] and any
    [auth_url_params], the request of scenario 2 is answered with a URL at
    the authorization endpoint of the provider whose query is the configured
    [auth_url_params] merged over [response_type=code], [client_id=foo],
    [redirect_uri=http://example.com/redirect], [state=s], [scope=a b c] and
    [baz=quux]; with [audience=x] configured, these seven entries exactly. *)
Theorem configAuthCodeURLUpdateOperation_basic (b : backend.backend)
    (e : Endpoint) (vsn : Z) (cfg : ConfigEntry) :
  cached b = Some {| Config := cfg; Provider := basicProvider e vsn |} →
  ClientID cfg = "foo" →
  (∃ query,
     configAuthCodeURLUpdateOperation b authCodeURLRequest
     = (b, (Some (DataResponse
                    {[ "url" := VURL {| Base := AuthURL e; Query := query |} ]}),
            None))
     ∧ query = AuthURLParams cfg ∪
               ({[ "response_type" := "code"; "client_id" := "foo";
                   "redirect_uri" := "http://example.com/redirect";
                   "state" := "s"; "scope" := "a b c"; "baz" := "quux" ]}
                : gmap string string)
     ∧ (AuthURLParams cfg = {[ "audience" := "x" ]} →
        query = {[ "response_type" := "code"; "client_id" := "foo";
                   "redirect_uri" := "http://example.com/redirect";
                   "state" := "s"; "scope" := "a b c"; "baz" := "quux";
                   "audience" := "x" ]})).
Proof.
  intros Hcache Hid. eexists. split; [|split].
  - unfold configAuthCodeURLUpdateOperation, getCache. rewrite Hcache.
    cbn [authCodeURLRequest acu_state acu_redirect_url acu_scopes acu_auth_url_params
         acu_provider_options Get Config Provider].
    unfold PublicAuthCodeURL, AuthCodeURL.
    cbn [fold_left ApplyOption o_redirectURL o_scopes o_params basicProvider
         NewAuthCodeURLConfigBuilder NewConformingAuthCodeURLConfigBuilder
         WithScopes WithRedirectURL cb_endpoint cb_clientID cb_redirectURL cb_scopes].
    rewrite SetAuthURLParams_map, Hid. reflexivity.
  - rewrite (right_id_L ∅ (∪)), <- (assoc_L (∪)).
    f_equal; apply map_eq; intros k; by vm_compute.
  - intros ->. apply map_eq. intros k. vm_compute. reflexivity.
Qed.

End AuthCodeURL.

Section ScenarioChecks.
Import provider persistence backend scenarios.

Example configuredBackend_eq :
  configuredBackend
  = {| providerRegistry := registry;
       storage := {| kv := {[ configKey := ConfigValue basicConfig ]}; fault := None |};
       cached := None;
       events := [EvWriteConfig basicConfig; EvReset] |}.
Proof. vm_compute. reflexivity. Qed.

Example cachedBackend_cached :
  cached cachedBackend
  = Some {| Config := basicConfig; Provider := basic.basicProvider basicEndpoint 1 |}.
Proof. vm_compute. reflexivity. Qed.

(** A leeway factor that is not a number passes the sanity checks: it is not
    below 1. *)
Example checkTuning_nan :
  (configUpdateOperation 1 sampleTuning emptyBackend (request "basic" (Some nan))).2
  = (None, None).
Proof. vm_compute. reflexivity. Qed.

End ScenarioChecks.

Section ScenarioClaims.
Import provider persistence backend scenarios.

Local Abbreviation update := (configUpdateOperation 1 sampleTuning).

(** A leeway factor of 0.5 with the basic provider: an error response, and
    the backend as before. *)
Lemma configUpdateOperation_tuning_bounds_witness :
  (update emptyBackend (request "basic" (Some 0.5%float))).1 = emptyBackend
  ∧ ∃ resp, (update emptyBackend (request "basic" (Some 0.5%float))).2 = (Some resp, None)
            ∧ IsError resp = true.
Proof.
  destruct (configUpdateOperation_tuning_bounds 1 sampleTuning
              emptyBackend (request "basic" (Some 0.5%float)) _ _
              (surjective_pairing _)) as [Hviolated _].
  destruct Hviolated as [Hsame [Hresp|(name & opts & err & Hname & Hnew & _)]].
  - left. vm_compute. reflexivity.
  - by split.
  - injection Hname as <-. vm_compute in Hnew. discriminate Hnew.
Defined.

(** The same leeway factor with a provider that cannot be built: the error of
    the registry is returned, not an error response. *)
Lemma configUpdateOperation_tuning_bounds_counterexample :
  violatesBound (requestedTuning sampleTuning (request "unreachable" (Some 0.5%float)))
  ∧ update emptyBackend (request "unreachable" (Some 0.5%float))
    = (emptyBackend, (None, Some RetrieveError)).
Proof. split; [left|]; vm_compute; reflexivity. Qed.

(** Configuring the basic provider: the ConfigEntry is stored with the latest
    config version and the version of the provider, and the events are the
    write and one reset. *)
Lemma configUpdateOperation_success_witness :
  ∃ c, ReadConfig (storage configuredBackend) = inr (Some c)
       ∧ Version c = 1
       ∧ ProviderVersion c = 1
       ∧ events configuredBackend = [EvWriteConfig c; EvReset]
       ∧ cached configuredBackend = None.
Proof.
  destruct (configUpdateOperation_success 1 sampleTuning
              emptyBackend (request "basic" None) _ _
              (surjective_pairing _)) as [Hsuccess _].
  destruct Hsuccess as (name & opts & p & c & Hname & Hnew & Hread & Hv & Hpv & Hev & Hc).
  - vm_compute. reflexivity.
  - injection Hname as <-. vm_compute in Hnew. injection Hnew as <- <-.
    exists c. by repeat split.
Defined.

(** Deleting the configuration next to the credential [alice]: the
    credential stays, the ConfigEntry is gone, one reset follows. *)
Lemma configDeleteOperation_frame_witness :
  ReadCredential (storage (configDeleteOperation credentialBackend).1) "alice"
  = Some aliceEntry
  ∧ ReadConfig (storage (configDeleteOperation credentialBackend).1) = inr None
  ∧ events (configDeleteOperation credentialBackend).1 = [EvDeleteConfig; EvReset].
Proof.
  destruct (configDeleteOperation_frame credentialBackend) as (Hframe & Hok & _).
  destruct (Hok eq_refl) as (_ & _ & Hread & Hevents & _).
  split; [|split].
  - rewrite Hframe. vm_compute. reflexivity.
  - exact Hread.
  - exact Hevents.
Defined.

Lemma missing_input_error_response_witness :
  update emptyBackend emptyRequest
  = (emptyBackend, (Some (ErrorResponse "missing client ID" []), None))
  ∧ configAuthCodeURLUpdateOperation emptyBackend noState
    = (emptyBackend, (Some (ErrorResponse "not configured" []), None))
  ∧ configAuthCodeURLUpdateOperation cachedBackend noState
    = (cachedBackend, (Some (ErrorResponse "missing state" []), None)).
Proof.
  split; [|split].
  - by apply (missing_input_error_response 1 sampleTuning emptyBackend).
  - by apply (missing_input_error_response 1 sampleTuning emptyBackend).
  - destruct (missing_input_error_response 1 sampleTuning cachedBackend)
      as (_ & _ & Hstate & _).
    rewrite (Hstate noState eq_refl). vm_compute. reflexivity.
Defined.

(** No state is given, but the cache cannot be obtained: the version of the
    provider that the stored ConfigEntry is pinned at is not registered.  The
    answer is that error, not an error response. *)
Lemma missing_input_error_response_counterexample :
  acu_state noState = None
  ∧ configAuthCodeURLUpdateOperation pinnedBackend noState
    = (pinnedBackend, (None, Some ErrNoProviderWithVersion)).
Proof. split; [reflexivity|]. vm_compute. reflexivity. Qed.

Lemma configAuthCodeURLUpdateOperation_basic_witness :
  ∃ query,
    configAuthCodeURLUpdateOperation cachedBackend authCodeURLRequest
    = (cachedBackend,
       (Some (DataResponse
                {[ "url" := VURL {| Base := "http://localhost/authorize";
                                    Query := query |} ]}), None))
    ∧ query = {[ "response_type" := "code"; "client_id" := "foo";
                 "redirect_uri" := "http://example.com/redirect";
                 "state" := "s"; "scope" := "a b c"; "baz" := "quux";
                 "audience" := "x" ]}.
Proof.
  destruct (configAuthCodeURLUpdateOperation_basic cachedBackend basicEndpoint 1
              basicConfig cachedBackend_cached eq_refl)
    as (query & Hrun & _ & Hquery).
  exists query. split; [exact Hrun|]. by apply Hquery.
Defined.

(** Reading the configuration back: the client secret [bar] is not in the
    answer, and another secret in the store gives the same answer. *)
Lemma configReadOperation_hides_client_secret_witness :
  (configReadOperation (backendWithClientSecret "other" configuredBackend)).2
  = (configReadOperation configuredBackend).2
  ∧ ∃ data, (configReadOperation configuredBackend).2 = (Some (DataResponse data), None)
            ∧ dom data = configReadKeys
            ∧ data !! "client_secret" = None.
Proof.
  destruct (configReadOperation_hides_client_secret configuredBackend)
    as (Hsame & Hdata & _).
  split; [apply Hsame|].
  destruct (Hdata (DataResponse (configReadData basicConfig)) None)
    as (data & Hresp & Hdom & Hsecret).
  - vm_compute. reflexivity.
  - exists data. injection Hresp as <-. split; [|by split].
    vm_compute. reflexivity.
Defined.

End ScenarioClaims.

(** ** The basic exchange configuration *)

Section BasicExchange.
Import net provider basic basic_test.

Lemma Exchange_conf now :
  Exchange conf now "123456" [("baz", "quux")] = inr (exchangedToken now).
Proof. vm_compute. reflexivity. Qed.

Lemma Refresh_conf now now' :
  Valid now' (exchangedToken now) = false →
  Refresh conf now' (exchangedToken now) = inr (refreshedToken now').
Proof.
  intros Hinvalid. unfold Refresh. rewrite Hinvalid.
  vm_compute. reflexivity.
Qed.

Lemma refreshedToken_Valid now : Valid now (refreshedToken now) = true.
Proof.
  unfold Valid, expired, refreshedToken, expiryDelta, Second, Nanosecond.
  cbn [AccessToken Expiry]. rewrite bool_decide_eq_false_2 by done.
  rewrite bool_decide_eq_false_2 by lia. reflexivity.
Qed.

(** The requests that the exchange and the refresh of the test make pass
    every assertion of the handler. *)
Example handler_assertions_hold :
  Failed (h {| URL := "http://localhost/token";
               Form := {[ "grant_type" := "authorization_code"; "code" := "123456";
                          "redirect_uri" := "http://example.com/redirect";
                          "baz" := "quux";
                          "client_id" := "foo"; "client_secret" := "bar" ]} |}) = []
  ∧ Failed (h {| URL := "http://localhost/token";
                 Form := {[ "grant_type" := "refresh_token"; "refresh_token" := "efgh";
                            "client_id" := "foo"; "client_secret" := "bar" ]} |}) = [].
Proof. vm_compute. split; reflexivity. Qed.

(** C7.  With the client [foo]/[bar] and the redirect URL
    [http://example.com/redirect], exchanging the code [123456] against the
    token endpoint of the test gives a token with the access token [abcd], the
    refresh token [efgh] and a type that is [bearer] up to case; refreshing
    that token at an instant at which it is no longer valid gives a valid
    token with the access token [ijkl]. *)
Theorem Exchange_then_Refresh (now now' : Z) :
  ∃ token,
    Exchange conf now "123456" [("baz", "quux")] = inr token
    ∧ AccessToken token = "abcd"
    ∧ RefreshToken token = "efgh"
    ∧ EqualFold (TokenType token) "bearer" = true
    ∧ TokenTypeOf token = "Bearer"
    ∧ Expiry token = Some (now + 5 * Second)
    ∧ (Valid now' token = false →
       ∃ token', Refresh conf now' token = inr token'
                 ∧ AccessToken token' = "ijkl"
                 ∧ Valid now' token' = true).
Proof.
  exists (exchangedToken now). split; [apply Exchange_conf|].
  repeat (split; [reflexivity|]).
  intros Hinvalid. exists (refreshedToken now').
  split; [by apply Refresh_conf|]. split; [reflexivity|apply refreshedToken_Valid].
Qed.

(** The test refreshes right after the exchange: a token that expires in five
    seconds is within the expiry delta, and so no longer valid. *)
Lemma Exchange_then_Refresh_witness :
  ∃ token,
    Exchange conf 0 "123456" [("baz", "quux")] = inr token
    ∧ Valid 0 token = false
    ∧ ∃ token', Refresh conf 0 token = inr token'
                ∧ AccessToken token' = "ijkl"
                ∧ Valid 0 token' = true.
Proof.
  destruct (Exchange_then_Refresh 0 0)
    as (token & Hexchange & _ & _ & _ & _ & Hexpiry & Hrefresh).
  exists token. split; [exact Hexchange|].
  assert (Valid 0 token = false) as Hinvalid.
  { rewrite Exchange_conf in Hexchange. by injection Hexchange as <-. }
  split; [exact Hinvalid|]. by apply Hrefresh.
Defined.

End BasicExchange.

(** * Further properties of the embedded code *)

(** ** The mock exchange configuration: what [Exchange] records *)

Section MockExchangeMore.
Import provider testutil.

Lemma Exchange_Some (c : mockExchangeConfig) f code (s : MockState) :
  fn c = Some f →
  Exchange c code s
  = match f code (world s) with
    | inl err =>
        (inl err, {| owner := owner s; world := world s; calls := calls s ++ [code] |})
    | inr tok =>
        (inr tok,
         {| owner := if bool_decide (RefreshToken tok = "") then owner s
                     else putRefreshTokenCode (owner s) (RefreshToken tok) code;
            world := world s; calls := calls s ++ [code] |})
    end.
Proof.
  intros Hfn. unfold Exchange, callFn. rewrite Hfn.
  destruct (f code (world s)) as [err|tok]; [done|].
  by case_bool_decide.
Qed.

(** [Exchange] takes down the code under the refresh token of the token it
    returns; the codes of the other refresh tokens, the version, the expected
    options and the exchange functions of the mock stay, and the exchange
    function has been called once, with the code. *)
Theorem Exchange_records_code (c : mockExchangeConfig) f code (s : MockState) tok :
  fn c = Some f → f code (world s) = inr tok → RefreshToken tok ≠ "" →
  (Exchange c code s).1 = inr tok
  ∧ getRefreshTokenCode (owner (Exchange c code s).2) (RefreshToken tok) = Some code
  ∧ (∀ r, r ≠ RefreshToken tok →
       getRefreshTokenCode (owner (Exchange c code s).2) r
       = getRefreshTokenCode (owner s) r)
  ∧ vsn (owner (Exchange c code s).2) = vsn (owner s)
  ∧ expectedOpts (owner (Exchange c code s).2) = expectedOpts (owner s)
  ∧ exchanges (owner (Exchange c code s).2) = exchanges (owner s)
  ∧ calls (Exchange c code s).2 = calls s ++ [code].
Proof.
  intros Hfn Hf Hne. rewrite (Exchange_Some c f code s Hfn), Hf.
  cbn [fst snd owner calls]. rewrite bool_decide_eq_false_2 by done.
  unfold getRefreshTokenCode, putRefreshTokenCode. cbn [refresh vsn expectedOpts exchanges].
  split; [done|]. split; [apply lookup_insert_eq|].
  split; [|done]. intros r Hr. by apply lookup_insert_ne.
Qed.

(** [Exchange] records nothing when it fails: the mock is as before.  Without
    an exchange function for the client it fails with a retrieve error and
    calls nothing. *)
Theorem Exchange_error_keeps_owner (c : mockExchangeConfig) code (s : MockState) err :
  (Exchange c code s).1 = inl err →
  owner (Exchange c code s).2 = owner s
  ∧ world (Exchange c code s).2 = world s
  ∧ (fn c = None → err = RetrieveError ∧ (Exchange c code s).2 = s).
Proof.
  destruct (fn c) as [f|] eqn:Hfn.
  - rewrite (Exchange_Some c f code s Hfn).
    destruct (f code (world s)) as [e|tok]; cbn [fst snd owner world]; [|done].
    intros _. by repeat split.
  - unfold Exchange. rewrite Hfn. cbn [fst snd]. intros [= <-]. by repeat split.
Qed.

(** A token without refresh token is handed out without a record. *)
Lemma Exchange_no_refresh_token (c : mockExchangeConfig) code (s : MockState) tok :
  (Exchange c code s).1 = inr tok → RefreshToken tok = "" →
  owner (Exchange c code s).2 = owner s.
Proof.
  destruct (fn c) as [f|] eqn:Hfn.
  - rewrite (Exchange_Some c f code s Hfn).
    destruct (f code (world s)) as [e|tok']; cbn [fst snd owner]; [done|].
    intros [= ->] Hempty. by rewrite bool_decide_eq_true_2.
  - unfold Exchange. by rewrite Hfn.
Qed.

(** [Refresh] replays the code of the exchange: a token with the refresh
    token that an exchange has handed out, once it is no longer valid, is
    refreshed by calling the exchange function with the code of that
    exchange. *)
Theorem Refresh_replays_code (c : mockExchangeConfig) f code (s : MockState)
    tok (t : Token) (w : World) :
  fn c = Some f →
  (Exchange c code s).1 = inr tok → RefreshToken tok ≠ "" →
  RefreshToken t = RefreshToken tok → Valid (now w) t = false →
  Refresh c t (laterState (Exchange c code s).2 w)
  = (f code w,
     {| owner := owner (Exchange c code s).2; world := w;
        calls := calls s ++ [code; code] |}).
Proof.
  intros Hfn Hex Hne Heq Hinvalid.
  rewrite (Exchange_Some c f code s Hfn) in *.
  destruct (f code (world s)) as [e|tok'] eqn:Hf; [done|].
  cbn [fst snd] in *. injection Hex as ->.
  rewrite bool_decide_eq_false_2 by done.
  unfold Refresh, laterState. cbn [owner world calls].
  rewrite Heq, bool_decide_eq_false_2 by done. rewrite Hfn.
  unfold getRefreshTokenCode, putRefreshTokenCode. cbn [refresh].
  rewrite lookup_insert_eq, Hinvalid. unfold callFn. cbn [owner world calls].
  by rewrite <- app_assoc.
Qed.

(** [Refresh] never writes to the mock, and never moves the clock. *)
Lemma Refresh_owner (c : mockExchangeConfig) (t : Token) (s : MockState) :
  owner (Refresh c t s).2 = owner s ∧ world (Refresh c t s).2 = world s.
Proof.
  unfold Refresh.
  destruct (if bool_decide (RefreshToken t = "") then None else fn c) as [f|]; [|done].
  destruct (getRefreshTokenCode (owner s) (RefreshToken t)) as [code|]; [|done].
  by destruct (Valid (now (world s)) t).
Qed.

(** [Refresh] records nothing: the mock and the clock are as before, whatever
    it returns.  So a refresh token that no exchange has handed out stays
    unknown: a token with it is returned as it is by every later [Refresh],
    valid or not. *)
Theorem Refresh_keeps_owner (c : mockExchangeConfig) (t t' : Token) (s : MockState) :
  owner (Refresh c t s).2 = owner s
  ∧ world (Refresh c t s).2 = world s
  ∧ (getRefreshTokenCode (owner s) (RefreshToken t') = None →
     ∀ w, Refresh c t' (laterState (Refresh c t s).2 w)
          = (inr t', laterState (Refresh c t s).2 w)).
Proof.
  destruct (Refresh_owner c t s) as [Howner Hworld]. split; [done|]. split; [done|].
  intros Hunknown w. unfold Refresh at 1. unfold laterState at 1. cbn [owner].
  rewrite Howner, Hunknown.
  by destruct (if bool_decide (RefreshToken t' = "") then None else fn c).
Qed.

(** The tokens of [ExpiringMockExchange] expire the given duration after the
    call; handed out by [Exchange], they are valid at that instant exactly
    when they have an access token and the duration reaches the expiry delta
    of ten seconds. *)
Theorem ExpiringMockExchange_Valid (g : MockExchangeFunc) (duration : Z) code
    (s : MockState) tok :
  g code (world s) = inr tok →
  ∃ tok',
    (Exchange {| fn := Some (ExpiringMockExchange g duration) |} code s).1 = inr tok'
    ∧ AccessToken tok' = AccessToken tok
    ∧ TokenType tok' = TokenType tok
    ∧ RefreshToken tok' = RefreshToken tok
    ∧ Expiry tok' = Some (now (world s) + duration)
    ∧ (Valid (now (world s)) tok' = true
       ↔ AccessToken tok ≠ "" ∧ expiryDelta ≤ duration).
Proof.
  intros Hg.
  rewrite (Exchange_Some {| fn := Some (ExpiringMockExchange g duration) |}
             (ExpiringMockExchange g duration) code s eq_refl).
  unfold ExpiringMockExchange, AmendTokenMockExchange. rewrite Hg.
  eexists. split; [reflexivity|]. cbn [AccessToken TokenType RefreshToken Expiry].
  repeat (split; [reflexivity|]).
  unfold Valid, expired. cbn [AccessToken Expiry].
  rewrite andb_true_iff, !negb_true_iff, !bool_decide_eq_false.
  split; intros [? ?]; (split; [done|lia]).
Qed.

End MockExchangeMore.

(** ** The mock provider factory: what the deleted options entail *)

Section MockFactoryMore.
Import provider testutil.


(** The map that a successful [factory] call leaves cannot build the provider
    again: when the mock expects some option, a second call with that map,
    on whatever accepted version and in whatever iteration order, fails with
    "not found" for an expected option. *)
Theorem factory_second_call ord ord' m v v' (options after : gmap string string) p :
  ValidOrder ord → ValidOrder ord' →
  acceptedVersion m v → acceptedVersion m v' →
  expectedOpts m ≠ ∅ →
  factory ord m v options = (after, inr p) →
  ∃ k, factory ord' m v' after = (∅, inl (OptionError k "not found"))
       ∧ is_Some (expectedOpts m !! k).
Proof.
  intros Hord Hord' Hv Hv' Hexpects Hfirst.
  destruct (factory_accepted ord m v options Hord Hv)
    as [[_ Heq]|[_ (o' & k & msg & Heq & _)]]; rewrite Heq in Hfirst; [|done].
  injection Hfirst as <- _.
  destruct (factory_accepted ord' m v' ∅ Hord' Hv')
    as [[Heq' _]|[_ (o' & k & msg & -> & Hsub & Hbad)]]; [done|].
  assert (o' = ∅) as ->.
  { apply map_empty. intros i. destruct (o' !! i) as [x|] eqn:Hi; [|done].
    rewrite map_subseteq_spec in Hsub. apply Hsub in Hi. by rewrite lookup_empty in Hi. }
  destruct Hbad as [(ev & HE & _ & ->)|[(ev & av & _ & Ho & _)|(_ & [av Ho] & _)]].
  - exists k. by rewrite HE.
  - by rewrite lookup_empty in Ho.
  - by rewrite lookup_empty in Ho.
Qed.


End MockFactoryMore.

(** ** The [config] path: when an update succeeds, and what it stores *)

Section ConfigPathMore.
Import provider persistence backend.

Variable ConfigVersionLatest : Z.
Variable DefaultConfigTuningEntry : ConfigTuningEntry.

Local Abbreviation configUpdateOperation :=
  (backend.configUpdateOperation ConfigVersionLatest DefaultConfigTuningEntry).
Local Abbreviation requestedTuning := (backend.requestedTuning DefaultConfigTuningEntry).
Local Abbreviation requested :=
  (requestedConfig ConfigVersionLatest DefaultConfigTuningEntry).

(** [configUpdateOperation] succeeds exactly when the request names a client
    ID and a provider, the registry builds the provider, the five tuning
    bounds hold, and the store takes the write. *)
Theorem configUpdateOperation_succeeds_iff b data :
  (configUpdateOperation b data).2 = (None, None)
  ↔ ∃ clientID name opts p st,
      client_id data = Some clientID
      ∧ provider_name data = Some name
      ∧ New (providerRegistry b) name (Get ∅ (provider_options data)) = (opts, inr p)
      ∧ allBoundsHold (requestedTuning data)
      ∧ WriteConfig (storage b) (requested data clientID name opts p) = inr st.
Proof.
  split.
  - intros Hres. pose proof (configUpdateOperation_outcome
      ConfigVersionLatest DefaultConfigTuningEntry b data) as Hout.
    rewrite Hres in Hout.
    inversion Hout as [| | | | | | |clientID name opts p c Hid Hname Hnew Hb Hfault Hc Hb'].
    exists clientID, name, opts, p. eexists.
    repeat (split; [done|]). unfold WriteConfig. by rewrite Hfault.
  - intros (clientID & name & opts & p & st & Hid & Hname & Hnew & Hb & Hw).
    unfold backend.configUpdateOperation. rewrite Hid, Hname, Hnew.
    apply checkTuning_passed in Hb. cbn [Tuning]. rewrite Hb.
    unfold requestedConfig in Hw. by rewrite Hw.
Qed.

(** After a successful [configUpdateOperation] the store holds the request:
    the client ID, the client secret (empty when none is given), the URL
    parameters, the provider name, the options as the registry has handed
    them back, and the requested tuning, in which every field that the
    request leaves out has the default of the schema. *)
Theorem configUpdateOperation_stores_request b data :
  (configUpdateOperation b data).2 = (None, None) →
  ∃ clientID name opts p,
    client_id data = Some clientID
    ∧ provider_name data = Some name
    ∧ New (providerRegistry b) name (Get ∅ (provider_options data)) = (opts, inr p)
    ∧ ReadConfig (storage (configUpdateOperation b data).1)
      = inr (Some (requested data clientID name opts p))
    ∧ (client_secret data = None →
       ClientSecret (requested data clientID name opts p) = "")
    ∧ (tune_provider_timeout_seconds data = None
       ∧ tune_provider_timeout_expiry_leeway_factor data = None
       ∧ tune_refresh_check_interval_seconds data = None
       ∧ tune_refresh_expiry_delta_factor data = None
       ∧ tune_reap_check_interval_seconds data = None
       ∧ tune_reap_dry_run data = None
       ∧ tune_reap_non_refreshable_seconds data = None
       ∧ tune_reap_revoked_seconds data = None
       ∧ tune_reap_transient_error_attempts data = None
       ∧ tune_reap_transient_error_seconds data = None →
       Tuning (requested data clientID name opts p) = DefaultConfigTuningEntry).
Proof.
  intros Hres. pose proof (configUpdateOperation_outcome
    ConfigVersionLatest DefaultConfigTuningEntry b data) as Hout.
  rewrite Hres in Hout.
  inversion Hout as [| | | | | | |clientID name opts p c Hid Hname Hnew Hb Hfault Hc Hb'].
  exists clientID, name, opts, p. repeat (split; [done|]).
  split; [|split].
  - unfold ReadConfig. cbn [storage fault kv]. by rewrite lookup_insert_eq, Hc.
  - intros Hs. cbn. by rewrite Hs.
  - intros (H1 & H2 & H3 & H4 & H5 & H6 & H7 & H8 & H9 & H10).
    cbn [requestedConfig Tuning]. unfold backend.requestedTuning.
    rewrite H1, H2, H3, H4, H5, H6, H7, H8, H9, H10. cbn [Get].
    by destruct DefaultConfigTuningEntry.
Qed.

End ConfigPathMore.

(** ** The sanity checks on the factors *)

Section Factors.
Import provider persistence backend.
Import SpecFloat FloatOps FloatAxioms.

Lemma SFcompare_refl_finite s m e :
  SFcompare (S754_finite s m e) (S754_finite s m e) = Some Eq.
Proof.
  cbn. rewrite Z.compare_refl, Pos.compare_cont_refl. by destruct s.
Qed.

(** Comparison with 1.0 on [float64]: [x < 1] fails exactly when [1 <= x]
    holds or [x] is not a number. *)
Lemma ltb_one_false (x : float) :
  PrimFloat.ltb x 1 = false ↔ factorAccepted x.
Proof.
  unfold factorAccepted, PrimFloat.is_nan.
  rewrite ltb_spec, leb_spec, FloatAxioms.eqb_spec.
  assert (∃ m e, Prim2SF 1 = S754_finite false m e) as (m1 & e1 & ->)
    by (do 2 eexists; vm_compute; reflexivity).
  unfold SFltb, SFleb, SFeqb.
  destruct (Prim2SF x) as [s|s| |s m e].
  - cbn. destruct s; split; (discriminate || by intros [?|?]).
  - destruct s; cbn; split; (discriminate || (by intros [?|?]) || by right || by left).
  - cbn. split; [by left|done].
  - rewrite SFcompare_refl_finite. cbn [negb].
    destruct s; cbn [SFcompare].
    + split; [discriminate|by intros [?|?]].
    + rewrite (Z.compare_antisym e e1).
      destruct (e ?= e1)%Z eqn:He; cbn [CompOpp].
      * replace (Pos.compare_cont Eq m1 m) with (CompOpp (Pos.compare_cont Eq m m1))
          by apply (Pos.compare_cont_antisym m m1 Eq).
        destruct (Pos.compare_cont Eq m m1); cbn [CompOpp];
          split; (discriminate || (by intros [?|?]) || by right).
      * split; [discriminate|by intros [?|?]].
      * split; [by right|done].
Qed.

(** The sanity checks let a tuning entry pass exactly when each factor is at
    least 1.0 or not a number, the refresh check interval is at most 90 days,
    the reap check interval at most 180 days, and the reap attempts are not
    negative. *)
Theorem checkTuning_accepts (t : ConfigTuningEntry) :
  checkTuning t = None
  ↔ factorAccepted (ProviderTimeoutExpiryLeewayFactor t)
    ∧ factorAccepted (RefreshExpiryDeltaFactor t)
    ∧ RefreshCheckIntervalSeconds t ≤ 90 * 24 * 60 * 60
    ∧ ReapCheckIntervalSeconds t ≤ 180 * 24 * 60 * 60
    ∧ 0 ≤ ReapTransientErrorAttempts t.
Proof.
  rewrite checkTuning_passed. unfold allBoundsHold.
  by rewrite !ltb_one_false.
Qed.

End Factors.

(** ** Reading the configuration: what the answer tells *)

Section ConfigReadMore.
Import provider persistence backend.

Lemma configReadData_lookup cfg key :
  configReadData cfg !! key
  = let t := Tuning cfg in
    if bool_decide (key = "client_id") then Some (VString (ClientID cfg))
    else if bool_decide (key = "auth_url_params") then Some (VKVPairs (AuthURLParams cfg))
    else if bool_decide (key = "provider") then Some (VString (ProviderName cfg))
    else if bool_decide (key = "provider_version") then Some (VInt (ProviderVersion cfg))
    else if bool_decide (key = "provider_options")
      then Some (VKVPairs (ProviderOptions cfg))
    else if bool_decide (key = "tune_provider_timeout_seconds")
      then Some (VInt (ProviderTimeoutSeconds t))
    else if bool_decide (key = "tune_provider_timeout_expiry_leeway_factor")
      then Some (VFloat (ProviderTimeoutExpiryLeewayFactor t))
    else if bool_decide (key = "tune_refresh_check_interval_seconds")
      then Some (VInt (RefreshCheckIntervalSeconds t))
    else if bool_decide (key = "tune_refresh_expiry_delta_factor")
      then Some (VFloat (RefreshExpiryDeltaFactor t))
    else if bool_decide (key = "tune_reap_check_interval_seconds")
      then Some (VInt (ReapCheckIntervalSeconds t))
    else if bool_decide (key = "tune_reap_dry_run") then Some (VBool (ReapDryRun t))
    else if bool_decide (key = "tune_reap_non_refreshable_seconds")
      then Some (VInt (ReapNonRefreshableSeconds t))
    else if bool_decide (key = "tune_reap_revoked_seconds")
      then Some (VInt (ReapRevokedSeconds t))
    else if bool_decide (key = "tune_reap_transient_error_attempts")
      then Some (VInt (ReapTransientErrorAttempts t))
    else if bool_decide (key = "tune_reap_transient_error_seconds")
      then Some (VInt (ReapTransientErrorSeconds t))
    else None.
Proof.
  unfold configReadData. cbn [list_to_map foldr uncurry fst snd].
  repeat (case_bool_decide;
          [subst key; repeat (rewrite lookup_insert_ne by discriminate);
           by rewrite lookup_insert_eq|
           rewrite (lookup_insert_ne _ _ key) by done]).
  apply lookup_empty.
Qed.

(** The answer of [configReadOperation] tells the whole configuration apart
    from the config version and the client secret: two ConfigEntries with the
    same response data agree on the client ID, the URL parameters, the
    provider name, version and options, and the tuning. *)
Theorem configReadData_determines cfg1 cfg2 :
  configReadData cfg1 = configReadData cfg2 →
  ClientID cfg1 = ClientID cfg2
  ∧ AuthURLParams cfg1 = AuthURLParams cfg2
  ∧ ProviderName cfg1 = ProviderName cfg2
  ∧ ProviderVersion cfg1 = ProviderVersion cfg2
  ∧ ProviderOptions cfg1 = ProviderOptions cfg2
  ∧ Tuning cfg1 = Tuning cfg2.
Proof.
  intros Heq.
  assert (∀ key, configReadData cfg1 !! key = configReadData cfg2 !! key) as Hkey
    by (by intros; rewrite Heq).
  pose proof (Hkey "client_id") as H1.
  pose proof (Hkey "auth_url_params") as H2.
  pose proof (Hkey "provider") as H3.
  pose proof (Hkey "provider_version") as H4.
  pose proof (Hkey "provider_options") as H5.
  pose proof (Hkey "tune_provider_timeout_seconds") as T1.
  pose proof (Hkey "tune_provider_timeout_expiry_leeway_factor") as T2.
  pose proof (Hkey "tune_refresh_check_interval_seconds") as T3.
  pose proof (Hkey "tune_refresh_expiry_delta_factor") as T4.
  pose proof (Hkey "tune_reap_check_interval_seconds") as T5.
  pose proof (Hkey "tune_reap_dry_run") as T6.
  pose proof (Hkey "tune_reap_non_refreshable_seconds") as T7.
  pose proof (Hkey "tune_reap_revoked_seconds") as T8.
  pose proof (Hkey "tune_reap_transient_error_attempts") as T9.
  pose proof (Hkey "tune_reap_transient_error_seconds") as T10.
  rewrite !configReadData_lookup in H1, H2, H3, H4, H5, T1, T2, T3, T4, T5, T6, T7, T8, T9, T10.
  clear Heq Hkey.
  destruct cfg1 as [? ? ? ? ? ? ? []], cfg2 as [? ? ? ? ? ? ? []].
  vm_compute in H1, H2, H3, H4, H5, T1, T2, T3, T4, T5, T6, T7, T8, T9, T10.
  cbn. repeat split; congruence.
Qed.

End ConfigReadMore.

(** ** Instances *)

Section MoreInstances.
Import provider persistence backend testutil scenarios more_scenarios.

Lemma Exchange_records_code_witness :
  (Exchange mockConfig "123456" mockState0).1 = inr staticToken
  ∧ getRefreshTokenCode (owner (Exchange mockConfig "123456" mockState0).2) "efgh"
    = Some "123456"
  ∧ calls (Exchange mockConfig "123456" mockState0).2 = ["123456"].
Proof.
  destruct (Exchange_records_code mockConfig (StaticMockExchange staticToken)
              "123456" mockState0 staticToken eq_refl eq_refl)
    as (Hres & Hcode & _ & _ & _ & _ & Hcalls); [discriminate|].
  by repeat split.
Defined.

Lemma Exchange_error_keeps_owner_witness :
  (Exchange errorConfig "123456" mockState0).1 = inl RetrieveError
  ∧ owner (Exchange errorConfig "123456" mockState0).2 = owner mockState0.
Proof.
  split; [reflexivity|].
  by apply (Exchange_error_keeps_owner errorConfig "123456" mockState0 RetrieveError).
Defined.

Lemma Refresh_replays_code_witness :
  Refresh mockConfig staticToken
    (laterState (Exchange mockConfig "123456" mockState0).2 {| now := 200 * Second |})
  = (inr staticToken,
     {| owner := owner (Exchange mockConfig "123456" mockState0).2;
        world := {| now := 200 * Second |};
        calls := ["123456"; "123456"] |}).
Proof.
  apply (Refresh_replays_code mockConfig (StaticMockExchange staticToken)
           "123456" mockState0 staticToken staticToken {| now := 200 * Second |});
    try reflexivity.
  discriminate.
Defined.

Lemma Refresh_keeps_owner_witness :
  Refresh mockConfig foreignToken
    (laterState (Refresh mockConfig staleToken mockState0).2 {| now := 200 * Second |})
  = (inr foreignToken,
     laterState (Refresh mockConfig staleToken mockState0).2 {| now := 200 * Second |}).
Proof.
  by apply (Refresh_keeps_owner mockConfig staleToken foreignToken mockState0).
Defined.

Lemma ExpiringMockExchange_Valid_witness :
  ∃ tok',
    (Exchange {| fn := Some (ExpiringMockExchange (StaticMockExchange staticToken)
                               (5 * Second)) |} "123456" mockState0).1 = inr tok'
    ∧ Expiry tok' = Some (5 * Second)
    ∧ Valid 0 tok' = false.
Proof.
  destruct (ExpiringMockExchange_Valid (StaticMockExchange staticToken) (5 * Second)
              "123456" mockState0 staticToken eq_refl)
    as (tok' & Hres & _ & _ & _ & Hexpiry & Hvalid).
  exists tok'. split; [exact Hres|]. split; [exact Hexpiry|].
  destruct (Valid 0 tok') eqn:Hv; [|done].
  apply Hvalid in Hv as [_ Hle]. vm_compute in Hle. by destruct Hle.
Defined.

Lemma factory_second_call_witness :
  ∃ k, factory map_to_list mockExpectingA 1 ∅
       = (∅, inl (OptionError k "not found"))
       ∧ is_Some (expectedOpts mockExpectingA !! k).
Proof.
  apply (factory_second_call map_to_list map_to_list mockExpectingA (-1) 1
           {[ "a" := "b" ]} ∅ (mockProvider mockExpectingA)
           ValidOrder_map_to_list ValidOrder_map_to_list).
  - by left.
  - by right.
  - intros H. by apply (f_equal (λ m : gmap string string, m !! "a")) in H.
  - vm_compute. reflexivity.
Defined.



Lemma configUpdateOperation_stores_request_witness :
  ReadConfig (storage configuredBackend) = inr (Some basicConfig)
  ∧ Tuning basicConfig = sampleTuning.
Proof.
  destruct (configUpdateOperation_stores_request 1 sampleTuning emptyBackend
              (request "basic" None))
    as (clientID & name & opts & p & Hid & Hname & Hnew & Hread & _ & _).
  - vm_compute. reflexivity.
  - injection Hid as <-. injection Hname as <-.
    vm_compute in Hnew. injection Hnew as <- <-.
    split; [exact Hread|reflexivity].
Defined.

Lemma configReadData_determines_witness :
  ClientID (withClientSecret "other" basicConfig) = ClientID basicConfig
  ∧ Tuning (withClientSecret "other" basicConfig) = Tuning basicConfig.
Proof.
  destruct (configReadData_determines (withClientSecret "other" basicConfig)
              basicConfig eq_refl) as (Hid & _ & _ & _ & _ & Htuning).
  by split.
Defined.

(** Not a number passes, one half does not. *)
Example factorAccepted_nan :
  factorAccepted nan ∧ factorAccepted 1 ∧ ¬ factorAccepted 0.5.
Proof.
  split; [by left|]. split; [by right|].
  intros [H|H]; vm_compute in H; discriminate.
Qed.

End MoreInstances.

(** ** The handlers and their schemas *)

Section FieldDataMore.
Import provider persistence backend framework.

Lemma hasType_asString v : hasType TypeString v = true → ∃ s, v = FString s.
Proof. destruct v; try discriminate. by eexists. Qed.

Lemma hasType_asInt t v :
  t = TypeInt ∨ t = TypeDurationSecond → hasType t v = true → ∃ z, v = FInt z.
Proof. intros [-> | ->]; destruct v; try discriminate; by eexists. Qed.

Lemma hasType_asBool v : hasType TypeBool v = true → ∃ b, v = FBool b.
Proof. destruct v; try discriminate. by eexists. Qed.

Lemma hasType_asFloat v : hasType TypeFloat v = true → ∃ f, v = FFloat f.
Proof. destruct v; try discriminate. by eexists. Qed.

Lemma hasType_asKVPairs v : hasType TypeKVPairs v = true → ∃ m, v = FKVPairs m.
Proof. destruct v; try discriminate. by eexists. Qed.

Lemma hasType_asStrings v : hasType TypeCommaStringSlice v = true → ∃ l, v = FStrings l.
Proof. destruct v; try discriminate. by eexists. Qed.

(** A read with [Get] of a declared field, followed by a type assertion that
    fits the schema, is the typed read with the default of the schema. *)
Lemma Get_as {A : Type} (as_ : FieldValue → option A) data k schema dv :
  WellTyped data →
  Schema data !! k = Some schema →
  (∀ v, hasType (Type_ schema) v = true → is_Some (as_ v)) →
  as_ (DefaultOrZero schema) = Some dv →
  framework.Get data k ≫= as_ = Some (backend.Get dv (GetOk data k ≫= as_)).
Proof.
  intros Htyped Hschema Has Hdflt. unfold framework.Get, GetOk. rewrite Hschema.
  destruct (Raw data !! k) as [v|] eqn:Hraw; cbn.
  - destruct (Has v (Htyped k v schema Hraw Hschema)) as [a Ha]. by rewrite Ha.
  - by rewrite Hdflt.
Qed.

(** A read with [GetOk] of a declared field gives a value of the type of the
    schema. *)
Lemma GetOk_typed data k schema v :
  WellTyped data → Schema data !! k = Some schema → GetOk data k = Some v →
  hasType (Type_ schema) v = true.
Proof.
  intros Htyped Hschema. unfold GetOk. rewrite Hschema. intros Hraw.
  by apply (Htyped k v schema).
Qed.

Lemma wrap64_fits z : - 2 ^ 63 ≤ z < 2 ^ 63 → wrap64 z = z.
Proof.
  intros Hz. unfold wrap64.
  rewrite Z.mod_small by lia. lia.
Qed.

(** The default of a duration field is the number of seconds that the schema
    names, when a [time.Duration] can hold it. *)
Lemma DefaultOrZero_duration seconds :
  fitsDuration seconds →
  asInt (DefaultOrZero {| Type_ := TypeDurationSecond; Default := Some (FInt seconds) |})
  = Some seconds.
Proof.
  intros Hfits. unfold DefaultOrZero, ParseDurationSecond. cbn.
  rewrite wrap64_fits by exact Hfits.
  unfold Seconds. by rewrite Z.quot_mul by (vm_compute; discriminate).
Qed.

Ltac typed_read Htyped Hschema :=
  match goal with
  | |- context [framework.Get ?data ?k ≫= ?as_] =>
      erewrite (Get_as as_ data k _ _ Htyped);
      [ | rewrite Hschema; reflexivity
        | intros v Hv; cbn in Hv; destruct v; try discriminate Hv; by eexists
        | first [ by apply DefaultOrZero_duration | cbn; reflexivity ] ]
  end.

(** On a request that the framework has validated against [configFields],
    no read of [configUpdateOperation] panics: each field that it reads is
    declared, with the type that it asserts, and a tuning field that the
    request leaves out has the default of the tuning entry.  The handler is
    then the handler on the typed record. *)
Theorem configUpdateOperation_reads_declared_fields
    (ConfigVersionLatest : Z) (DefaultConfigTuningEntry : ConfigTuningEntry)
    (b : backend.backend) (data : FieldData) :
  Schema data = handlers.configFields DefaultConfigTuningEntry →
  WellTyped data →
  defaultsFit DefaultConfigTuningEntry →
  handlers.configUpdateOperation ConfigVersionLatest b data
  = Some (backend.configUpdateOperation ConfigVersionLatest DefaultConfigTuningEntry b
            (handlers.configFieldData data)).
Proof.
  intros Hschema Htyped (Hd1 & Hd2 & Hd3 & Hd4 & Hd5 & Hd6).
  unfold handlers.configUpdateOperation, backend.configUpdateOperation.
  cbn [client_id provider_name provider_options handlers.configFieldData].
  destruct (GetOk data "client_id") as [clientID|] eqn:HclientID; [|done].
  eapply GetOk_typed in HclientID as HT; [|done|by rewrite Hschema].
  apply hasType_asString in HT as [clientID' ->].
  destruct (GetOk data "provider") as [providerName|] eqn:Hprovider; [|done].
  eapply GetOk_typed in Hprovider as HT; [|done|by rewrite Hschema].
  apply hasType_asString in HT as [providerName' ->].
  cbn [mbind option_bind asString].
  do 13 typed_read Htyped Hschema.
  cbn [mbind option_bind]. unfold requestedTuning.
  cbn [client_secret auth_url_params tune_provider_timeout_seconds
       tune_provider_timeout_expiry_leeway_factor tune_refresh_check_interval_seconds
       tune_refresh_expiry_delta_factor tune_reap_check_interval_seconds
       tune_reap_dry_run tune_reap_non_refreshable_seconds tune_reap_revoked_seconds
       tune_reap_transient_error_attempts tune_reap_transient_error_seconds
       handlers.configFieldData].
  destruct (New _ _ _) as [providerOptions [err|p]]; by repeat case_match.
Qed.

(** On a request that the framework has validated against
    [configAuthCodeURLFields], no read of [configAuthCodeURLUpdateOperation]
    panics, and the handler is the handler on the typed record. *)
Theorem configAuthCodeURLUpdateOperation_reads_declared_fields
    (b : backend.backend) (data : FieldData) :
  Schema data = handlers.configAuthCodeURLFields →
  WellTyped data →
  handlers.configAuthCodeURLUpdateOperation b data
  = Some (backend.configAuthCodeURLUpdateOperation b
            (handlers.authCodeURLFieldData data)).
Proof.
  intros Hschema Htyped.
  unfold handlers.configAuthCodeURLUpdateOperation,
    backend.configAuthCodeURLUpdateOperation.
  destruct (getCache b) as [b' [err|[c|]]]; [done| |done].
  cbn [acu_state acu_redirect_url acu_scopes acu_auth_url_params acu_provider_options
       handlers.authCodeURLFieldData].
  destruct (GetOk data "state") as [state|] eqn:Hstate; [|done].
  eapply GetOk_typed in Hstate as HT; [|done|by rewrite Hschema].
  apply hasType_asString in HT as [state' ->].
  cbn [mbind option_bind asString].
  do 4 typed_read Htyped Hschema.
  cbn [mbind option_bind].
  by case_match.
Qed.

(** A request given by a list of fields is well typed when each field that
    the schema declares passes [hasType]. *)
Lemma WellTyped_checked (l : list (string * FieldValue)) (S : gmap string FieldSchema) :
  forallb (λ kv, match S !! kv.1 with
                 | Some schema => hasType (Type_ schema) kv.2
                 | None => true
                 end) l = true →
  WellTyped {| Raw := list_to_map l; Schema := S |}.
Proof.
  intros Hall k v schema Hraw Hschema. cbn in Hraw, Hschema.
  apply elem_of_list_to_map_2 in Hraw.
  rewrite forallb_forall in Hall.
  apply list_elem_of_In in Hraw. apply Hall in Hraw. cbn in Hraw.
  by rewrite Hschema in Hraw.
Qed.

Lemma defaultsFit_sampleTuning : defaultsFit sampleTuning.
Proof. unfold defaultsFit, fitsDuration. cbn. unfold Second, Nanosecond. lia. Qed.

Lemma configUpdateOperation_reads_declared_fields_witness :
  handlers.configUpdateOperation 1 emptyBackend more_scenarios.rawRequest
  = Some (backend.configUpdateOperation 1 sampleTuning emptyBackend
            (request "basic" None)).
Proof.
  etrans.
  - apply (configUpdateOperation_reads_declared_fields 1 sampleTuning emptyBackend
             more_scenarios.rawRequest eq_refl).
    + by apply WellTyped_checked.
    + exact defaultsFit_sampleTuning.
  - do 2 f_equal.
Defined.

Lemma configAuthCodeURLUpdateOperation_reads_declared_fields_witness :
  handlers.configAuthCodeURLUpdateOperation configuredBackend
    more_scenarios.rawAuthCodeURLRequest
  = Some (backend.configAuthCodeURLUpdateOperation configuredBackend
            authCodeURLRequest).
Proof.
  etrans.
  - apply (configAuthCodeURLUpdateOperation_reads_declared_fields configuredBackend
             more_scenarios.rawAuthCodeURLRequest eq_refl).
    by apply WellTyped_checked.
  - do 2 f_equal.
Defined.

(** What well-typedness rules out: a value of another type than the schema's
    makes the type assertion panic. *)
Example configUpdateOperation_panics :
  handlers.configUpdateOperation 1 emptyBackend more_scenarios.illTypedRequest = None.
Proof. by vm_compute. Qed.

End FieldDataMore.

(** ** The mock token provider *)

Section TokenProviderMore.
Import net url tokenprovider.




































(** The handler can issue an empty token, which it then refuses as a subject
    token. *)
Example ServeHTTP_empty_token :
  Body (ServeHTTP more_scenarios.foreignExchangeRequest)
  = accessTokenBody (issuedToken [] [])
  ∧ url.Encode (issuedToken [] []) = "".
Proof. split; by vm_compute. Qed.

End TokenProviderMore.

(** ** The exchange functions with a state *)

Section ExchangesMore.
Import provider testutil exchanges.

Lemma FormatInt_inj z z' : FormatInt z = FormatInt z' → z = z'.
Proof.
  unfold FormatInt. intros H.
  assert (∀ d, Z.of_int <$> DecimalString.NilZero.int_of_string
                              (DecimalString.NilZero.string_of_int d)
               = Some (Z.of_int d)) as Hread.
  { intros d.
    destruct d as [[]|[]]; try done;
      by rewrite DecimalString.NilZero.isi. }
  pose proof (Hread (Z.to_int z)) as Hz. rewrite H, Hread in Hz.
  rewrite !DecimalZ.of_to in Hz. congruence.
Qed.

Lemma wrap32_inj a b : wrap32 a = wrap32 b → (a - b) `mod` 2 ^ 32 = 0.
Proof.
  unfold wrap32. intros H.
  assert ((a + 2 ^ 31) `mod` 2 ^ 32 = (b + 2 ^ 31) `mod` 2 ^ 32) as Hmod by lia.
  replace (a - b) with ((a + 2 ^ 31) - (b + 2 ^ 31)) by lia.
  rewrite Zminus_mod, Hmod, Z.sub_diag. done.
Qed.

Lemma AddInt32_wrap32 x d : AddInt32 (wrap32 x) d = wrap32 (x + d).
Proof.
  unfold AddInt32, wrap32. f_equal.
  replace ((x + 2 ^ 31) `mod` 2 ^ 32 - 2 ^ 31 + d + 2 ^ 31)
    with ((x + 2 ^ 31) `mod` 2 ^ 32 + d) by lia.
  replace (x + d + 2 ^ 31) with ((x + 2 ^ 31) + d) by lia.
  by rewrite Zplus_mod_idemp_l.
Qed.


Lemma callsFrom_length {R : Type} (f : Z → string → World → R * Z) i calls :
  length (callsFrom f i calls) = length calls.
Proof.
  revert i. induction calls as [|[code w] calls IH]; intros i; [done|].
  simpl. by rewrite IH.
Qed.

Lemma callsFrom_IncrementMockExchange prefix x calls (k : nat) :
  (k < length calls)%nat →
  callsFrom (IncrementMockExchange prefix) (wrap32 x) calls !! k
  = Some (inr (numberedToken prefix (wrap32 (x + Z.of_nat k + 1)))).
Proof.
  revert x k. induction calls as [|[code w] calls IH]; intros x k Hk; [simpl in Hk; lia|].
  change (callsFrom (IncrementMockExchange prefix) (wrap32 x) ((code, w) :: calls))
    with (inr (numberedToken prefix (AddInt32 (wrap32 x) 1))
          :: callsFrom (IncrementMockExchange prefix) (AddInt32 (wrap32 x) 1) calls).
  rewrite AddInt32_wrap32. destruct k as [|k].
  - cbn [lookup list_lookup]. do 4 f_equal. lia.
  - simpl in Hk. cbn [lookup list_lookup]. rewrite IH by lia. do 4 f_equal. lia.
Qed.

(** The calls of an [IncrementMockExchange] are numbered from 1. *)
Theorem IncrementMockExchange_numbers_calls prefix calls (k : nat) :
  (k < length calls)%nat →
  Z.of_nat k + 1 < 2 ^ 31 →
  callsFrom (IncrementMockExchange prefix) 0 calls !! k
  = Some (inr (numberedToken prefix (Z.of_nat k + 1))).
Proof.
  intros Hk Hsmall.
  change 0 with (wrap32 0) at 1. rewrite callsFrom_IncrementMockExchange by done.
  do 3 f_equal. unfold wrap32. rewrite Z.mod_small by lia. lia.
Qed.

(** An [IncrementMockExchange] hands out a token of its own at each call,
    as long as its counter has not gone round. *)
Theorem IncrementMockExchange_never_repeats prefix calls :
  Z.of_nat (length calls) ≤ 2 ^ 32 →
  NoDup (callsFrom (IncrementMockExchange prefix) 0 calls).
Proof.
  intros Hlen. apply NoDup_alt. intros k1 k2 r H1 H2.
  assert (k1 < length calls)%nat as Hk1.
  { apply lookup_lt_Some in H1. by rewrite callsFrom_length in H1. }
  assert (k2 < length calls)%nat as Hk2.
  { apply lookup_lt_Some in H2. by rewrite callsFrom_length in H2. }
  change 0 with (wrap32 0) in H1, H2.
  rewrite callsFrom_IncrementMockExchange in H1, H2 by done.
  rewrite <- H2 in H1. injection H1 as Heq.
  apply (inj (String.app prefix)), FormatInt_inj, wrap32_inj in Heq.
  replace (0 + Z.of_nat k1 + 1 - (0 + Z.of_nat k2 + 1))
    with (Z.of_nat k1 - Z.of_nat k2) in Heq by lia.
  apply Z.mod_divide in Heq; [|lia]. destruct Heq as [q Hq]. nia.
Qed.

Lemma EncodeToString_length src :
  String.length (EncodeToString src) = (2 * String.length src)%nat.
Proof. induction src as [|c src IH]; simpl; [done|]. rewrite IH. lia. Qed.

Lemma substring_length n s :
  (n ≤ String.length s)%nat → String.length (substring 0 n s) = n.
Proof.
  revert s. induction n as [|n IH]; intros [|c s] Hn; simpl in *; try done; try lia.
  rewrite IH; [done|lia].
Qed.

Lemma hexDigit_lowerHex n : (n < 16)%N → lowerHex (hexDigit n) = true.
Proof.
  intros Hn. assert (n ∈ (N.of_nat <$> seq 0 16)) as Hin.
  { apply list_elem_of_fmap. exists (N.to_nat n). split; [lia|].
    apply list_elem_of_In, in_seq. lia. }
  simpl in Hin. repeat (apply elem_of_cons in Hin as [->|Hin]; [by vm_compute|]).
  by apply elem_of_nil in Hin.
Qed.

Lemma EncodeToString_lowerHex src : allChars lowerHex (EncodeToString src) = true.
Proof.
  induction src as [|c src IH]; [done|].
  cbn [EncodeToString allChars]. pose proof (N_ascii_bounded c) as Hc.
  rewrite IH, !hexDigit_lowerHex; [done|..].
  - by apply N.mod_lt.
  - apply N.Div0.div_lt_upper_bound. lia.
Qed.

Lemma randomToken_Some n entropy token :
  randomToken n entropy = Some token →
  String.length token = (2 * n)%nat ∧ allChars lowerHex token = true.
Proof.
  unfold randomToken. case_decide as Hn; [|done]. intros [= <-].
  split; [|apply EncodeToString_lowerHex].
  by rewrite EncodeToString_length, substring_length.
Qed.

(** [randomToken] writes two hexadecimal digits for each byte, and panics
    exactly when the random source has fewer bytes. *)
Theorem randomToken_hex (n : nat) (entropy : string) :
  (is_Some (randomToken n entropy) ↔ (n ≤ String.length entropy)%nat)
  ∧ ∀ token, randomToken n entropy = Some token →
      String.length token = (2 * n)%nat ∧ allChars lowerHex token = true.
Proof.
  split; [|apply randomToken_Some].
  unfold randomToken. case_decide; split; done.
Qed.

(** Every token of a [RefreshableMockExchange] carries the one refresh token
    of the closure, which has 80 hexadecimal digits, and the expiry that
    [step] gives for the number of the call; a call that gets no token from
    [fn] leaves the counter as it was. *)
Theorem RefreshableMockExchange_refresh_token fn step entropy f :
  RefreshableMockExchange fn step entropy = Some f →
  ∃ refreshToken,
    String.length refreshToken = 80%nat
    ∧ (∀ i code w tok, (f i code w).1 = inr tok →
         RefreshToken tok = refreshToken
         ∧ (f i code w).2 = AddInt32 i 1
         ∧ ∃ t exp, fn code w = inr t ∧ step (AddInt32 i 1) = inr exp
                    ∧ AccessToken tok = AccessToken t
                    ∧ Expiry tok = Some (now w + exp))
    ∧ (∀ i code w err, fn code w = inl err → f i code w = (inl err, i)).
Proof.
  unfold RefreshableMockExchange.
  destruct (randomToken 40 entropy) as [refreshToken|] eqn:Hrandom; [|done].
  intros [= <-]. exists refreshToken.
  destruct (randomToken_Some 40 entropy refreshToken Hrandom) as [Hlen _].
  split; [exact Hlen|]. split.
  - intros i code w tok.
    destruct (fn code w) as [err|t]; [done|].
    destruct (step (AddInt32 i 1)) as [err|exp] eqn:Hstep; [done|].
    cbn [fst snd]. intros [= <-]. cbn [RefreshToken AccessToken Expiry].
    split; [done|]. split; [done|]. by exists t, exp.
  - intros i code w err ->. done.
Qed.

(** With ten bytes from the random source, [RandomMockExchange] gives a
    token of twenty hexadecimal digits, without a refresh token and without
    an expiry, which is valid at any time; with fewer bytes it panics. *)
Theorem RandomMockExchange_token (entropy code : string) :
  (10 ≤ String.length entropy)%nat →
  ∃ tok, RandomMockExchange entropy code = Some (inr tok)
         ∧ String.length (AccessToken tok) = 20%nat
         ∧ allChars lowerHex (AccessToken tok) = true
         ∧ RefreshToken tok = ""
         ∧ ∀ now, Valid now tok = true.
Proof.
  intros Hentropy. unfold RandomMockExchange.
  destruct (randomToken 10 entropy) as [accessToken|] eqn:Hrandom.
  - destruct (randomToken_Some 10 entropy accessToken Hrandom) as [Hlen Hhex].
    eexists. split; [reflexivity|]. cbn [AccessToken RefreshToken].
    repeat split; try done.
    intros now. unfold Valid, expired. cbn [AccessToken Expiry].
    destruct accessToken; [discriminate Hlen|]. by rewrite bool_decide_eq_false_2.
  - unfold randomToken in Hrandom. by rewrite decide_True in Hrandom.
Qed.

Lemma IncrementMockExchange_numbers_calls_witness :
  callsFrom (IncrementMockExchange "token") 0 more_scenarios.threeCalls !! 2%nat
  = Some (inr (numberedToken "token" 3)).
Proof.
  apply (IncrementMockExchange_numbers_calls "token" more_scenarios.threeCalls 2).
  - simpl. lia.
  - simpl. lia.
Defined.

Lemma IncrementMockExchange_never_repeats_witness :
  NoDup (callsFrom (IncrementMockExchange "token") 0 more_scenarios.threeCalls).
Proof.
  apply (IncrementMockExchange_never_repeats "token" more_scenarios.threeCalls).
  simpl. lia.
Defined.

Lemma RefreshableMockExchange_refresh_token_witness :
  ∃ f refreshToken,
    RefreshableMockExchange (StaticMockExchange scenarios.staticToken)
      more_scenarios.sampleStep more_scenarios.sampleEntropy = Some f
    ∧ String.length refreshToken = 80%nat
    ∧ ∀ i code w tok, (f i code w).1 = inr tok → RefreshToken tok = refreshToken.
Proof.
  destruct (RefreshableMockExchange_refresh_token
              (StaticMockExchange scenarios.staticToken)
              more_scenarios.sampleStep more_scenarios.sampleEntropy _ eq_refl)
    as (refreshToken & Hlen & Hcalls & _).
  eexists _, refreshToken. split; [reflexivity|]. split; [exact Hlen|].
  intros i code w tok Htok. by destruct (Hcalls i code w tok Htok).
Defined.

Lemma RandomMockExchange_token_witness :
  ∃ tok, RandomMockExchange "0123456789" "123456" = Some (inr tok)
         ∧ String.length (AccessToken tok) = 20%nat.
Proof.
  destruct (RandomMockExchange_token "0123456789" "123456") as (tok & Htok & Hlen & _).
  - simpl. lia.
  - by exists tok.
Defined.

End ExchangesMore.
